(** * iss_tracker: the state-vector cache and the nearest-epoch lookup

    A shallow embedding of [iss_tracker.py] (the later, complete copy of the
    module) and the properties of its request handlers.

    The Redis database is a finite map from key names to typed values, the
    handlers are functions in a state-and-exception monad over it, and the
    samples are the string/dict/list trees [xmltodict] produces.

    What stays outside: the network (the download, the Redis connection, the
    geocoder and the astropy transform answer or fail as parameters of the
    handlers say), the C library (its [pow] is a parameter of the speed),
    characters beyond ASCII in keys and query parameters, and the time zone
    of the process, taken to be UTC. *)

From Stdlib Require Import ZArith String Ascii List Lia Sorted.
From Stdlib Require Import PrimFloat SpecFloat FloatOps FloatAxioms.
From stdpp Require Import base option list gmap strings.

Local Open Scope string_scope.
Local Open Scope Z_scope.

(** ** Python values *)

(** What [xmltodict.parse] yields and what [json.dumps]/[json.loads] carry
    through Redis unchanged: [None], strings, dicts with string keys (in
    document order) and lists. *)
Local Unset Elimination Schemes.
Inductive pyval : Type :=
| VNone
| VStr (s : string)
| VDict (items : list (string * pyval))
| VList (elems : list pyval).
Local Set Elimination Schemes.

(** The exceptions the handlers can meet. *)
Inductive exn : Type :=
| KeyError
| TypeError
| ValueError
| OverflowError
| NameError (name : string)
| DataError        (* redis-py: a key that is not bytes, str, int or float *)
| ResponseError.   (* redis: WRONGTYPE, operation against the wrong kind of value *)

(** A computation either returns or raises. *)
Inductive outcome (A : Type) : Type :=
| Ok (a : A)
| Raise (e : exn).
Arguments Ok {A} a.
Arguments Raise {A} e.

Definition obind {A B} (c : outcome A) (k : A → outcome B) : outcome B :=
  match c with
  | Ok a => k a
  | Raise e => Raise e
  end.

Module PyVal.

(** [d[k]] on the items of a dict. *)
Fixpoint dict_get (k : string) (items : list (string * pyval)) : option pyval :=
  match items with
  | [] => None
  | (k', v) :: rest => if String.eqb k k' then Some v else dict_get k rest
  end.

(** [v[k]] with a string subscript [k]: only a dict accepts it. *)
Definition getitem (v : pyval) (k : string) : outcome pyval :=
  match v with
  | VDict items =>
      match dict_get k items with
      | Some w => Ok w
      | None => Raise KeyError
      end
  | _ => Raise TypeError
  end.

Section Traversals.
Context {A : Type}.

(** [f] holds of every key and value of a dict. *)
Definition all_items (f : string → A → bool)
  : list (string * A) → bool :=
  fix go d :=
    match d with
    | [] => true
    | (k, v) :: d' => f k v && go d'
    end.

(** Two lists have the same length and [f] holds position by position. *)
Definition all_pairs (f : A → A → bool) : list A → list A → bool :=
  fix go l m :=
    match l, m with
    | [], [] => true
    | x :: l', y :: m' => f x y && go l' m'
    | _, _ => false
    end.
End Traversals.

(** Python's [==]: dicts compare by content whatever the order of their
    items, lists compare position by position. *)
Fixpoint eqb (a b : pyval) : bool :=
  match a, b with
  | VNone, VNone => true
  | VStr s, VStr t => String.eqb s t
  | VList l, VList m => all_pairs eqb l m
  | VDict d, VDict e =>
      Nat.eqb (length d) (length e) &&
      all_items
        (λ k v, match dict_get k e with
                | Some w => eqb v w
                | None => false
                end) d
  | _, _ => false
  end.

Fixpoint distinct (ks : list string) : bool :=
  match ks with
  | [] => true
  | k :: rest => negb (existsb (String.eqb k) rest) && distinct rest
  end.

(** A Python dict holds each key once; [wf] says so for every dict inside
    the value. *)
Fixpoint wf (v : pyval) : bool :=
  match v with
  | VDict d => distinct (map fst d) && all_items (λ _ w, wf w) d
  | VList l => forallb wf l
  | _ => true
  end.

(** Truth value of [not v]. *)
Definition truthy (v : pyval) : bool :=
  match v with
  | VNone => false
  | VStr s => negb (String.eqb s "")
  | VDict d => negb (Nat.eqb (length d) 0)
  | VList l => negb (Nat.eqb (length l) 0)
  end.

Fixpoint chars (s : string) : list pyval :=
  match s with
  | EmptyString => []
  | String c rest => VStr (String c EmptyString) :: chars rest
  end.

(** [for x in v]: the elements of a list, the keys of a dict, the
    characters of a string. *)
Definition iter (v : pyval) : outcome (list pyval) :=
  match v with
  | VNone => Raise TypeError
  | VStr s => Ok (chars s)
  | VDict d => Ok (map (λ kv, VStr (fst kv)) d)
  | VList l => Ok l
  end.

(** [len(v)]. *)
Definition len (v : pyval) : outcome Z :=
  match v with
  | VNone => Raise TypeError
  | VStr s => Ok (Z.of_nat (String.length s))
  | VDict d => Ok (Z.of_nat (length d))
  | VList l => Ok (Z.of_nat (length l))
  end.

(** [k in v] for a string [k]: key of a dict, element of a list. For a
    string [v] it is the substring test. *)
Fixpoint is_prefix (p s : string) : bool :=
  match p, s with
  | EmptyString, _ => true
  | String a p', String b s' => Ascii.eqb a b && is_prefix p' s'
  | String _ _, EmptyString => false
  end.

Fixpoint is_substring (p s : string) : bool :=
  is_prefix p s ||
  match s with
  | EmptyString => false
  | String _ s' => is_substring p s'
  end.

Definition contains (k : string) (v : pyval) : outcome bool :=
  match v with
  | VNone => Raise TypeError
  | VStr s => Ok (is_substring k s)
  | VDict d => Ok (bool_decide (is_Some (dict_get k d)))
  | VList l => Ok (existsb (eqb (VStr k)) l)
  end.

(** [{'error': msg}]. *)
Definition error (msg : string) : pyval := VDict [("error", VStr msg)].

End PyVal.

(** ** The Redis database *)

(** One keyspace holds both kinds of entries the module writes: the sample
    of an epoch, written by [rd.set(epoch, json.dumps(sv))], and the list of
    epoch keys under the name ["iss_keys"], grown by [rd.rpush]. A sample is
    kept as the value its JSON text decodes to: [json.loads (json.dumps sv)]
    is [sv] for the values of [pyval]. *)
Inductive rval : Type :=
| RString (payload : pyval)
| RList (elems : list string).

Abbreviation redis := (gmap string rval).

(** Handlers run against the database and may raise midway; what they wrote
    before stays written. *)
Definition M (A : Type) : Type := redis → redis * outcome A.

Definition ret {A} (a : A) : M A := λ db, (db, Ok a).
Definition raise {A} (e : exn) : M A := λ db, (db, Raise e).
Definition lift {A} (c : outcome A) : M A := λ db, (db, c).
Definition bind {A B} (c : M A) (k : A → M B) : M B :=
  λ db, match c db with
        | (db', Ok a) => k a db'
        | (db', Raise e) => (db', Raise e)
        end.

Declare Scope py_scope.
Delimit Scope py_scope with py.
Notation "'let*' x ':=' c 'in' k" := (bind c (λ x, k))
  (at level 10, x name, c at level 100, k at level 200) : py_scope.
Notation "'run' c 'in' k" := (bind c (λ _, k))
  (at level 10, c at level 100, k at level 200) : py_scope.

Module Rd.

(** The name of the list of epoch keys. *)
Definition iss_keys : string := "iss_keys".

(** [rd.exists(k)]: true for an entry of either kind. *)
Definition exists_ (k : string) : M bool :=
  λ db, (db, Ok (bool_decide (is_Some (db !! k)))).

(** [rd.set(k, json.dumps(v))]: replaces an entry of either kind. *)
Definition set (k : string) (v : pyval) : M unit :=
  λ db, (<[k := RString v]> db, Ok tt).

(** [rd.get(k)]: [None] for a missing key, WRONGTYPE on a list. *)
Definition get (k : string) : M (option pyval) :=
  λ db, match db !! k with
        | None => (db, Ok None)
        | Some (RString v) => (db, Ok (Some v))
        | Some (RList _) => (db, Raise ResponseError)
        end.

(** [rd.rpush(k, x)]: creates the list when the key is missing, WRONGTYPE
    on a string entry. *)
Definition rpush (k x : string) : M unit :=
  λ db, match db !! k with
        | None => (<[k := RList [x]]> db, Ok tt)
        | Some (RList l) => (<[k := RList (l ++ [x])]> db, Ok tt)
        | Some (RString _) => (db, Raise ResponseError)
        end.

(** [rd.lrange(k, 0, -1)]: the whole list, empty for a missing key. *)
Definition lrange_all (k : string) : M (list string) :=
  λ db, match db !! k with
        | None => (db, Ok [])
        | Some (RList l) => (db, Ok l)
        | Some (RString _) => (db, Raise ResponseError)
        end.

(** The epoch key index as the database holds it. *)
Definition index (db : redis) : list string :=
  match db !! iss_keys with
  | Some (RList l) => l
  | _ => []
  end.

End Rd.

(** [json.loads(x)] of what [rd.get] returned. *)
Definition json_loads (x : option pyval) : outcome pyval :=
  match x with
  | Some v => Ok v
  | None => Raise TypeError
  end.

(** A Redis key must be a string; the other values of [pyval] are refused by
    the client. *)
Definition redis_key (v : pyval) : outcome string :=
  match v with
  | VStr s => Ok s
  | _ => Raise DataError
  end.

(** ** Ingestion: the body of [for sv in state_vectors] in [read_iss_data] *)

(** What the loop body prints or logs, one message per sample. *)
Inductive event : Type :=
| AddingNewEpoch (epoch : string)   (* "adding new epoch: ..." *)
| UpdatingExisting (epoch : string) (* "Updating existing EPOCH: ..." *)
| AlreadyExists.                    (* "data already exists in the DB" *)

Local Open Scope py_scope.

(** One turn of the loop: a new epoch is stored and its key appended to the
    list; a known epoch is rewritten when the stored sample differs from
    the downloaded one, and left alone otherwise. *)
Definition store_state_vector (sv : pyval) : M event :=
  let* epoch_v := lift (PyVal.getitem sv "EPOCH") in
  let* epoch := lift (redis_key epoch_v) in
  let* present := Rd.exists_ epoch in
  if negb present then
    run Rd.set epoch sv in
    run Rd.rpush Rd.iss_keys epoch in
    ret (AddingNewEpoch epoch)
  else
    let* raw := Rd.get epoch in
    let* stored_data := lift (json_loads raw) in
    if negb (PyVal.eqb stored_data sv) then
      run Rd.set epoch sv in
      ret (UpdatingExisting epoch)
    else
      ret AlreadyExists.

(** The loop: samples in feed order, stopping at the first exception. *)
Fixpoint store_state_vectors (svs : list pyval) : M (list event) :=
  match svs with
  | [] => ret []
  | sv :: rest =>
      let* ev := store_state_vector sv in
      let* evs := store_state_vectors rest in
      ret (ev :: evs)
  end.

(** ** Timestamps: [time.strptime] on the two formats of the module, and
    [time.mktime] *)

Module Time.

(** The fields of [struct_time] that [time.mktime] reads. [strptime]
    derives year, month and day from the year and the day of the year
    through [datetime.date.fromordinal]; the date is kept as that
    proleptic Gregorian ordinal. *)
Record struct_time : Type := {
  tm_ordinal : Z;
  tm_hour : Z;
  tm_min : Z;
  tm_sec : Z
}.

Definition is_digit (c : ascii) : bool :=
  let n := nat_of_ascii c in (48 <=? n)%nat && (n <=? 57)%nat.

Definition digit_value (c : ascii) : Z := Z.of_nat (nat_of_ascii c) - 48.

(** The longest run of digits at the head of the text, and what follows. *)
Fixpoint digits_run (s : list ascii) : list ascii * list ascii :=
  match s with
  | c :: rest =>
      if is_digit c then
        let '(ds, tail) := digits_run rest in (c :: ds, tail)
      else ([], s)
  | [] => ([], [])
  end.

Definition number (ds : list ascii) : Z :=
  fold_left (λ acc c, 10 * acc + digit_value c) ds 0.

(** A numeric directive followed by a literal that is no digit: the
    directive's pattern has to take the whole run of digits, so the run has
    [minlen] to [maxlen] digits and a value from [lo] to [hi]. *)
Definition field (minlen maxlen : nat) (lo hi : Z) (s : list ascii)
  : option (Z * list ascii) :=
  let '(ds, rest) := digits_run s in
  if (minlen <=? length ds)%nat && (length ds <=? maxlen)%nat
     && (lo <=? number ds) && (number ds <=? hi)
  then Some (number ds, rest) else None.

Definition lower (c : ascii) : ascii :=
  let n := nat_of_ascii c in
  if (65 <=? n)%nat && (n <=? 90)%nat then ascii_of_nat (n + 32) else c.

(** A literal character of the format; the pattern is compiled with
    IGNORECASE. *)
Definition literal (c : ascii) (s : list ascii) : option (list ascii) :=
  match s with
  | c' :: rest => if Ascii.eqb (lower c') (lower c) then Some rest else None
  | [] => None
  end.

Definition days_before_year (y : Z) : Z :=
  (y - 1) * 365 + (y - 1) / 4 - (y - 1) / 100 + (y - 1) / 400.

(** [datetime.date(9999, 12, 31).toordinal()]. *)
Definition max_ordinal : Z := 3652059.

(** [%Y-%jT%H:%M:%S], the common head of both formats:
    [%Y] is four digits, [%j] is 1 to 366 on up to three digits,
    [%H] 0 to 23, [%M] 0 to 59 and [%S] 0 to 61 on up to two digits. *)
Definition date_and_time (s : list ascii)
  : option (Z * Z * Z * Z * Z * list ascii) :=
  '(year, s) ← field 4 4 0 9999 s;
  s ← literal "-" s;
  '(julian, s) ← field 1 3 1 366 s;
  s ← literal "T" s;
  '(hour, s) ← field 1 2 0 23 s;
  s ← literal ":" s;
  '(minute, s) ← field 1 2 0 59 s;
  s ← literal ":" s;
  '(second, s) ← field 1 2 0 61 s;
  Some (year, julian, hour, minute, second, s).

(** The date arithmetic after the match:
    [fromordinal((julian - 1) + date(year, 1, 1).toordinal())]. *)
Definition resolve (year julian hour minute second : Z)
  : outcome struct_time :=
  if year <? 1 then Raise ValueError
  else
    let ordinal := julian - 1 + (days_before_year year + 1) in
    if max_ordinal <? ordinal then Raise ValueError
    else Ok {| tm_ordinal := ordinal; tm_hour := hour;
               tm_min := minute; tm_sec := second |}.

(** [time.strptime(s, '%Y-%jT%H:%M:%S.%fZ')]; the fraction is matched (one
    to six digits) and dropped, [struct_time] has no field for it. *)
Definition strptime_epoch (s : string) : outcome struct_time :=
  match
    '(year, julian, hour, minute, second, s) ←
       date_and_time (list_ascii_of_string s);
    s ← literal "." s;
    '(_, s) ← field 1 6 0 999999 s;
    s ← literal "Z" s;
    match s with
    | [] => Some (year, julian, hour, minute, second)
    | _ => None
    end
  with
  | Some (year, julian, hour, minute, second) =>
      resolve year julian hour minute second
  | None => Raise ValueError
  end.

(** [time.strptime(s, '%Y-%jT%H:%M:%S')]. *)
Definition strptime_seconds (s : string) : outcome struct_time :=
  match
    '(year, julian, hour, minute, second, s) ←
       date_and_time (list_ascii_of_string s);
    match s with
    | [] => Some (year, julian, hour, minute, second)
    | _ => None
    end
  with
  | Some (year, julian, hour, minute, second) =>
      resolve year julian hour minute second
  | None => Raise ValueError
  end.

(** [date(1970, 1, 1).toordinal()]. *)
Definition unix_ordinal : Z := 719163.

(** [time.mktime(t)] with the process in UTC: seconds since 1970 as a
    float with an integral value, kept as the integer. Out-of-range fields
    (second 60 or 61) carry over. *)
Definition mktime (t : struct_time) : Z :=
  (tm_ordinal t - unix_ordinal) * 86400
  + tm_hour t * 3600 + tm_min t * 60 + tm_sec t.

End Time.

(** ** [int(s)] on a query parameter and list slicing *)

Module PyInt.

(** ASCII characters [int] strips as white space: tab, line feed, vertical
    tab, form feed, carriage return and the space. *)
Definition is_space (c : ascii) : bool :=
  let n := nat_of_ascii c in
  ((9 <=? n)%nat && (n <=? 13)%nat) || (n =? 32)%nat.

Fixpoint lstrip (s : list ascii) : list ascii :=
  match s with
  | c :: rest => if is_space c then lstrip rest else s
  | [] => []
  end.

Definition strip (s : list ascii) : list ascii :=
  rev (lstrip (rev (lstrip s))).

(** Decimal digits, with single underscores allowed between two digits.
    [after_digit] tells whether the character before was a digit. *)
Fixpoint digits (acc : Z) (after_digit : bool) (s : list ascii) : option Z :=
  match s with
  | [] => if after_digit then Some acc else None
  | c :: rest =>
      if Time.is_digit c then digits (10 * acc + Time.digit_value c) true rest
      else if Ascii.eqb c "_" then
        if after_digit then digits acc false rest else None
      else None
  end.

(** [sys.get_int_max_str_digits()] as the interpreter starts: a numeral of
    more digits is refused. Underscores and the sign are not counted, leading
    zeros are. *)
Definition max_str_digits : Z := 4300.

Definition numeral (s : list ascii) : option Z :=
  if max_str_digits <? Z.of_nat (length (List.filter Time.is_digit s))
  then None
  else digits 0 false s.

(** [int(s)] for a string of ASCII characters; [None] is [ValueError]. *)
Definition parse (s : string) : option Z :=
  match strip (list_ascii_of_string s) with
  | c :: rest =>
      if Ascii.eqb c "+" then numeral rest
      else if Ascii.eqb c "-" then Z.opp <$> numeral rest
      else numeral (c :: rest)
  | [] => None
  end.

End PyInt.

(** [i] as a slice bound on a list of length [n]: negative bounds count from
    the end, and every bound is clamped to the list. *)
Definition slice_bound (n i : Z) : Z :=
  if i <? 0 then Z.max (i + n) 0 else Z.min i n.

(** [l[start:stop]]. *)
Definition py_slice {A} (l : list A) (start stop : Z) : list A :=
  let n := Z.of_nat (length l) in
  let a := slice_bound n start in
  let b := slice_bound n stop in
  take (Z.to_nat (b - a)) (drop (Z.to_nat a) l).

(** [s[:-5]] on a string. *)
Definition drop_last5 (s : string) : string :=
  string_of_list_ascii
    (py_slice (list_ascii_of_string s) 0 (-5)).

(** ** Speed *)

(** [ERANGE], the value C's [errno] takes on a range error. *)
Definition ERANGE : Z := 34.

Section Speed.

(** [pow(x, y)] of the platform's C library: the value it returns and the
    [errno] it leaves, [0] when it reports no error. *)
Variable libm_pow : float → float → float * Z.

(** [pow(iv, 2.0)] as the interpreter reads it: an infinite result is a
    range error also when [pow] reported none, a range error with a zero
    result is an underflow and no error. A range error raises
    [OverflowError], any other error [ValueError]. *)
Definition checked_pow (iv : float) : outcome float :=
  let '(ix, errno) := libm_pow iv 2%float in
  let errno :=
    if errno =? 0 then
      if PrimFloat.is_infinity ix then ERANGE else 0
    else if (errno =? ERANGE) && PrimFloat.eqb ix 0 then 0
    else errno in
  if errno =? 0 then Ok ix
  else if errno =? ERANGE then Raise OverflowError
  else Raise ValueError.

(** [x ** 2] on a float, the interpreter's [float_pow] at the exponent
    [2.0]. A NaN, an infinity, a zero and [-1.0] or [1.0] are answered
    without the C library; any other [x] goes to [pow] by its absolute
    value. *)
Definition float_square (x : float) : outcome float :=
  if PrimFloat.is_nan x then Ok x
  else if PrimFloat.is_infinity x then Ok (PrimFloat.abs x)
  else if PrimFloat.eqb x 0 then Ok 0%float
  else
    let iv := if PrimFloat.ltb x 0 then PrimFloat.opp x else x in
    if PrimFloat.eqb iv 1 then Ok 1%float
    else checked_pow iv.

(** [math.sqrt(x)]: [ValueError] below zero. *)
Definition math_sqrt (x : float) : outcome float :=
  if PrimFloat.ltb x 0%float then Raise ValueError else Ok (PrimFloat.sqrt x).

Definition compute_speed (x_velocity y_velocity z_velocity : float)
  : outcome float :=
  obind (float_square x_velocity) (λ xx,
  obind (float_square y_velocity) (λ yy,
  obind (float_square z_velocity) (λ zz,
  math_sqrt (PrimFloat.add (PrimFloat.add xx yy) zz)))).

End Speed.

(** ** Responses *)

(** What a view function hands back to Flask. *)
Inductive response : Type :=
| Json (v : pyval)
    (* a stored sample, a list of them, or an error dict *)
| SpeedReport (epoch : string) (instant_speed : float)
    (* {'EPOCH': epoch, 'instant speed': instant_speed} *)
| LocationReport (latitude longitude altitude : float) (geolocation : string).
    (* jsonify({'latitude': .., 'longitude': .., 'altitude': ..,
                'Nearest Geolocation': ..}) *)

Definition error_response (msg : string) : response := Json (PyVal.error msg).

(** ** The names bound in the module's namespace *)

(** Imports, the two module-level objects and the functions, in the order
    the module binds them. *)
Definition module_globals : list string :=
  [ "time"; "coordinates"; "units"; "Time"; "Nominatim"; "requests";
    "xmltodict"; "math"; "List"; "Dict"; "Tuple"; "logging"; "Flask";
    "request"; "json"; "redis"; "app"; "rd"; "read_iss_data"; "epoch_data";
    "now_epoch_speed"; "compute_speed"; "epoch_speed";
    "compute_location_astropy"; "compute_nearest_geolocation";
    "epoch_location" ].

(** The built-in names the module calls. *)
Definition builtins : list string :=
  [ "print"; "len"; "int"; "float"; "abs" ].

(** Looking up a global name at run time. *)
Definition load_global (name : string) : outcome unit :=
  if existsb (String.eqb name) (module_globals ++ builtins)
  then Ok tt else Raise (NameError name).

(** ** [GET /epochs]: [read_iss_data] *)

(** What the [try] block around the download leaves behind: one of its two
    handled failures, the [TypeError] of a subscript on the way to
    ['stateVector'] that met [None], a string or a list and that no handler
    of the block catches, or the value found under ['stateVector']. *)
Inductive feed : Type :=
| RequestFailed                   (* requests.RequestException *)
| MalformedXml                    (* KeyError or ExpatError *)
| NotSubscriptable                (* TypeError, not handled *)
| Parsed (state_vectors : pyval).

(** [int(request.args.get(name, default))]; [None] is [ValueError]. *)
Definition query_int (arg : option string) (default : Z) : option Z :=
  match arg with
  | None => Some default
  | Some s => PyInt.parse s
  end.

(** [[json.loads(rd.get(epoch_key)) for epoch_key in epoch_keys]]. *)
Fixpoint load_all (epoch_keys : list string) : M (list pyval) :=
  match epoch_keys with
  | [] => ret []
  | epoch_key :: rest =>
      let* raw := Rd.get epoch_key in
      let* sv := lift (json_loads raw) in
      let* svs := load_all rest in
      ret (sv :: svs)
  end.

Definition read_iss_data (fetched : feed) (limit_arg offset_arg : option string)
  : M response :=
  match fetched with
  | RequestFailed => ret (error_response "failed to fetch iss data")
  | MalformedXml => ret (error_response "error parsing XML data")
  | NotSubscriptable => raise TypeError
  | Parsed state_vectors =>
      if negb (PyVal.truthy state_vectors) then
        ret (error_response "No ISSS StateVectors found")
      else
        let* svs := lift (PyVal.iter state_vectors) in
        run store_state_vectors svs in
        let* n := lift (PyVal.len state_vectors) in
        match query_int limit_arg n with
        | None => ret (error_response "limit parameter must be an integer")
        | Some limit =>
            match query_int offset_arg 0 with
            | None => ret (error_response "offset parameter must be an integer")
            | Some offset =>
                if n <=? offset then
                  ret (error_response "offset param. out of range.")
                else
                  let* epoch_keys := Rd.lrange_all Rd.iss_keys in
                  let* stored := load_all epoch_keys in
                  ret (Json (VList (py_slice stored offset (offset + limit))))
            end
        end
  end.

(** ** [GET /epochs/<epoch>]: [epoch_data] *)

Definition epoch_data (epoch : string) : M pyval :=
  let* present := Rd.exists_ epoch in
  if negb present then ret (PyVal.error "No matching EPOCH")
  else
    let* raw := Rd.get epoch in
    lift (json_loads raw).

(** ** The scan of [now_epoch_speed] *)

(** [min_time_diff]: [float("inf")] at first, then a difference in whole
    seconds. *)
Inductive time_diff : Type :=
| Infinity
| Seconds (d : Z).

(** [abs(latest_time_diff) < min_time_diff]. *)
Definition abs_below (latest_time_diff : Z) (min_time_diff : time_diff) : bool :=
  match min_time_diff with
  | Infinity => true
  | Seconds m => Z.abs latest_time_diff <? m
  end.

(** The loop over [epoch_keys], from the state [(closest_epoch_key,
    min_time_diff)]; the result is [closest_epoch_key] after the last key. *)
Fixpoint closest_scan (now_time_in_seconds : Z) (epoch_keys : list string)
    (closest_epoch_key : option string) (min_time_diff : time_diff)
  : outcome (option string) :=
  match epoch_keys with
  | [] => Ok closest_epoch_key
  | epoch_key :: rest =>
      obind (Time.strptime_epoch epoch_key) (λ t,
        let dict_time_in_seconds := Time.mktime t in
        let latest_time_diff := now_time_in_seconds - dict_time_in_seconds in
        if abs_below latest_time_diff min_time_diff then
          closest_scan now_time_in_seconds rest
            (Some epoch_key) (Seconds latest_time_diff)
        else
          closest_scan now_time_in_seconds rest
            closest_epoch_key min_time_diff)
  end.

Section Handlers.

(** [float(s)] on a string, the interpreter's decimal-to-binary
    conversion; [None] is [ValueError]. *)
Variable py_float : string → option float.

(** [pow] of the platform's C library, as in [float_square]. *)
Variable libm_pow : float → float → float * Z.

(** The coordinate transform of astropy, from GCRS to ITRS at the
    observation time: latitude, longitude and height, or the exception it
    raised. *)
Variable gcrs_to_itrs :
  float → float → float → Time.struct_time → outcome (float * float * float).

(** [geocoder.reverse((lat, lon), zoom, language='en')]: no place, or a
    place with its [display_name] when it has one. *)
Variable reverse : float → float → Z → outcome (option (option string)).

(** [float(v)]. *)
Definition float_of (v : pyval) : outcome float :=
  match v with
  | VStr s =>
      match py_float s with
      | Some f => Ok f
      | None => Raise ValueError
      end
  | _ => Raise TypeError
  end.

(** [state_vec[axis]['#text']]. *)
Definition component_text (state_vec : pyval) (axis : string) : outcome pyval :=
  obind (PyVal.getitem state_vec axis) (λ c, PyVal.getitem c "#text").

(** *** [GET /epochs/<epoch>/speed]: [epoch_speed] *)
Definition epoch_speed (epoch : string) : M response :=
  let* state_vec := epoch_data epoch in
  let* failed := lift (PyVal.contains "error" state_vec) in
  if failed then ret (Json state_vec)
  else
    match
      obind (component_text state_vec "X_DOT") (λ x_dot,
      obind (component_text state_vec "Y_DOT") (λ y_dot,
      obind (component_text state_vec "Z_DOT") (λ z_dot,
      Ok (x_dot, y_dot, z_dot))))
    with
    | Raise KeyError =>
        ret (error_response "Failed to extract velocity components, KeyError.")
    | Raise TypeError =>
        ret (error_response "TypeError, failed to get velocity components.")
    | Raise e => raise e
    | Ok (x_dot, y_dot, z_dot) =>
        let* x := lift (float_of x_dot) in
        let* y := lift (float_of y_dot) in
        let* z := lift (float_of z_dot) in
        let* instant_speed := lift (compute_speed libm_pow x y z) in
        ret (SpeedReport epoch instant_speed)
    end.

(** *** [GET /now]: [now_epoch_speed]

    [now_time_in_seconds] is [time.mktime(time.gmtime())], the clock read
    at the start of the request. After the loop [closest_epoch_key] goes to
    [epoch_speed]; were it still [None], the Redis client would refuse it
    as a key. *)
Definition now_epoch_speed (now_time_in_seconds : Z) : M response :=
  let* epoch_keys := Rd.lrange_all Rd.iss_keys in
  match epoch_keys with
  | [] => ret (error_response "Database is empty.")
  | _ :: _ =>
      let* closest_epoch_key :=
        lift (closest_scan now_time_in_seconds epoch_keys None Infinity) in
      match closest_epoch_key with
      | Some epoch => epoch_speed epoch
      | None => raise DataError
      end
  end.

(** *** [compute_location_astropy] *)

(** [float(sv[axis]['#text'])]. *)
Definition coordinate (sv : pyval) (axis : string) : outcome float :=
  obind (component_text sv axis) float_of.

(** [None] stands for the triple [(None, None, None)]. A sample whose
    ['EPOCH'] is no string cannot be sliced and parsed. *)
Definition compute_location_astropy (sv : pyval)
  : outcome (option (float * float * float)) :=
  match
    obind (coordinate sv "X") (λ x,
    obind (coordinate sv "Y") (λ y,
    obind (coordinate sv "Z") (λ z, Ok (x, y, z))))
  with
  | Raise KeyError | Raise TypeError | Raise ValueError => Ok None
  | Raise e => Raise e
  | Ok (x, y, z) =>
      obind (PyVal.getitem sv "EPOCH") (λ epoch,
        match epoch with
        | VStr s =>
            match Time.strptime_seconds (drop_last5 s) with
            | Raise ValueError => Ok None
            | Raise e => Raise e
            | Ok this_epoch =>
                obind (gcrs_to_itrs x y z this_epoch) (λ loc, Ok (Some loc))
            end
        | _ => Raise TypeError
        end)
  end.

(** *** [compute_nearest_geolocation] *)

(** One of the two [while] loops: further zoom levels are tried, in order,
    as long as [geoloc] is [None]. *)
Fixpoint retry_zooms (lat lon : float) (zooms : list Z)
    (geoloc : option (option string)) : outcome (option (option string)) :=
  match geoloc, zooms with
  | Some _, _ => Ok geoloc
  | None, [] => Ok None
  | None, zoom_level :: rest =>
      obind (reverse lat lon zoom_level) (retry_zooms lat lon rest)
  end.

(** From zoom level 15 the first loop visits 16 to 19 (it runs while
    [zoom_level <= 18], incrementing first), the second 14 down to 9. *)
Definition compute_nearest_geolocation (lat lon : float) : outcome string :=
  obind (reverse lat lon 15) (λ geoloc,
  obind (retry_zooms lat lon [16; 17; 18; 19] geoloc) (λ geoloc,
  obind (retry_zooms lat lon [14; 13; 12; 11; 10; 9] geoloc) (λ geoloc,
  match geoloc with
  | None =>
      Ok "No Nearest Geolocation Found. ISS might be hovering over an ocean."
  | Some display_name => Ok (default "Unknown Geolocation" display_name)
  end))).

(** *** [GET /epochs/<epoch>/location]: [epoch_location] *)
Definition epoch_location (epoch : string) : M response :=
  let* state_vec := epoch_data epoch in
  let* location := lift (compute_location_astropy state_vec) in
  match location with
  | None =>
      ret (error_response "Failed to Extract Latitude, Longitude, and Height.")
  | Some (lat, lon, alt) =>
      let* geolocation := lift (compute_nearest_geolocation lat lon) in
      run lift (load_global "jsonify") in
      ret (LocationReport lat lon alt geolocation)
  end.

End Handlers.

(** ** Vocabulary of the properties *)

(** The index is sound when it lists no key twice and every key it lists has
    a sample in the database. *)
Definition index_ok (db : redis) : Prop :=
  NoDup (Rd.index db) ∧
  ∀ k, k ∈ Rd.index db → ∃ v, db !! k = Some (RString v).

(** One [GET /epochs] request: what the download gave and the two query
    parameters. *)
Record epochs_request : Type := {
  fetched : feed;
  limit_arg : option string;
  offset_arg : option string
}.

Definition serve_epochs (r : epochs_request) (db : redis) : redis * outcome response :=
  read_iss_data (fetched r) (limit_arg r) (offset_arg r) db.

(** The database after a history of [GET /epochs] requests, the only
    requests that write. *)
Definition after_requests (history : list epochs_request) (db : redis) : redis :=
  fold_left (λ db r, (serve_epochs r db).1) history db.

(** The distance in time from [target] to an epoch key,
    [|parse(key) - target|] in seconds. *)
Definition time_distance (target : Z) (epoch_key : string) : outcome Z :=
  obind (Time.strptime_epoch epoch_key) (λ t, Ok (Z.abs (Time.mktime t - target))).

(** The epoch key parses and lies [d] seconds before the target, or at it. *)
Definition seconds_before (target : Z) (epoch_key : string) (d : Z) : Prop :=
  ∃ t, Time.strptime_epoch epoch_key = Ok t ∧
       d = target - Time.mktime t ∧ 0 ≤ d.

(** A float that [x ** 2] hands to the C library: a number other than the
    zeros, [-1.0], [1.0] and the infinities. *)
Definition ordinary (x : float) : bool :=
  negb (PrimFloat.is_nan x) && negb (PrimFloat.is_infinity x) &&
  negb (PrimFloat.eqb x 0) && negb (PrimFloat.eqb (PrimFloat.abs x) 1).

(** The C library answers [pow(a, 2.0)] in range: its result is not below
    zero, and either it reports no error and the result is not infinite, or
    it reports a range error with the result zero (an underflow). *)
Definition pow_in_range (libm_pow : float → float → float * Z) (a : float)
  : bool :=
  let '(ix, errno) := libm_pow a 2%float in
  negb (PrimFloat.ltb ix 0) &&
  (((errno =? 0) && negb (PrimFloat.is_infinity ix)) ||
   ((errno =? ERANGE) && PrimFloat.eqb ix 0)).

(** [x ** 2] is in range: [x] is not ordinary, or the C library answers in
    range at [|x|]. *)
Definition square_in_range (libm_pow : float → float → float * Z) (x : float)
  : bool :=
  negb (ordinary x) || pow_in_range libm_pow (PrimFloat.abs x).

(** The square of [x] as the platform has it: what the C library returns at
    [|x|] for an ordinary [x]. *)
Definition square_value (libm_pow : float → float → float * Z) (x : float)
  : float :=
  if PrimFloat.is_nan x then x
  else if PrimFloat.is_infinity x then infinity
  else if PrimFloat.eqb x 0 then 0%float
  else if PrimFloat.eqb (PrimFloat.abs x) 1 then 1%float
  else (libm_pow (PrimFloat.abs x) 2%float).1.

(** A float seen through its specification that is not below zero: a zero,
    a positive number, plus infinity or a NaN. *)
Definition sf_nonneg (s : spec_float) : Prop :=
  match s with
  | S754_infinity true | S754_finite true _ _ => False
  | _ => True
  end.

(** The samples the index lists, in index order. *)
Definition stored_samples (db : redis) : list pyval :=
  omap (λ k, match db !! k with
             | Some (RString v) => Some v
             | _ => None
             end) (Rd.index db).

(** The sample carries the string [k] under ['EPOCH'], the key the loop
    files it under. *)
Definition has_epoch (sv : pyval) (k : string) : Prop :=
  PyVal.getitem sv "EPOCH" = Ok (VStr k).

(** The database holds under [k] a sample that Python's [==] finds equal to
    [sv]. *)
Definition holds (db : redis) (sv : pyval) (k : string) : Prop :=
  ∃ v, db !! k = Some (RString v) ∧ PyVal.eqb v sv = true.

(** The samples the loop of a request goes through. *)
Definition feed_samples (r : epochs_request) : list pyval :=
  match fetched r with
  | Parsed state_vectors =>
      if PyVal.truthy state_vectors then
        match PyVal.iter state_vectors with
        | Ok svs => svs
        | Raise _ => []
        end
      else []
  | _ => []
  end.


(** Every key that holds a sample is listed in the index. *)
Definition all_listed (db : redis) : Prop :=
  ∀ k v, db !! k = Some (RString v) → k ∈ Rd.index db.

(** The seconds since 1970 an epoch key stands for. *)
Definition parsed_time (epoch_key : string) : outcome Z :=
  obind (Time.strptime_epoch epoch_key) (λ t, Ok (Time.mktime t)).

(** The epoch key parses and stands [d] seconds before the target ([d] is
    negative for a key after the target). *)
Definition signed_diff (target : Z) (epoch_key : string) (d : Z) : Prop :=
  ∃ t, Time.strptime_epoch epoch_key = Ok t ∧ d = target - Time.mktime t.

(** Both keys parse and the first is not later in time than the second. *)
Definition not_later (key key' : string) : Prop :=
  ∃ t t', parsed_time key = Ok t ∧ parsed_time key' = Ok t' ∧ t ≤ t'.

(** The zoom levels [compute_nearest_geolocation] asks for, in the order it
    asks. *)
Definition zoom_order : list Z := [15; 16; 17; 18; 19; 14; 13; 12; 11; 10; 9].

(** ** Sample data *)

Module Mock.

(** [<AXIS units="u">text</AXIS>] as [xmltodict] renders it. *)
Definition quantity (text units : string) : pyval :=
  VDict [("#text", VStr text); ("@units", VStr units)].

Definition state_vector (epoch x y z x_dot y_dot z_dot : string) : pyval :=
  VDict [ ("EPOCH", VStr epoch);
          ("X", quantity x "km");
          ("Y", quantity y "km");
          ("Z", quantity z "km");
          ("X_DOT", quantity x_dot "km/s");
          ("Y_DOT", quantity y_dot "km/s");
          ("Z_DOT", quantity z_dot "km/s") ].

(** The two samples of [mock_iss_data] in [test_iss_tracker.py]. *)
Definition sv0 : pyval :=
  state_vector "2025-063T12:00:00.000Z"
    "1000.0" "2000.0" "3000.0" "2.0" "2.0" "1.0".

Definition sv1 : pyval :=
  state_vector "2025-063T12:01:00.000Z"
    "1100.0" "2100.0" "3100.0" "3.0" "1.0" "4.0".

Definition mock_iss_data : list pyval := [sv0; sv1].

(** A third sample, five minutes after the first. *)
Definition sv5 : pyval :=
  state_vector "2025-063T12:05:00.000Z"
    "1500.0" "2500.0" "3500.0" "1.0" "2.0" "2.0".

(** A sample whose epoch is the name of the key list. *)
Definition sv_index_name : pyval :=
  state_vector "iss_keys" "0.0" "0.0" "0.0" "0.0" "0.0" "0.0".

(** A sample stamped with day 400 of the year. *)
Definition sv_day400 : pyval :=
  state_vector "2025-400T12:00:00.000Z"
    "1000.0" "2000.0" "3000.0" "2.0" "2.0" "1.0".

(** 2025-063T12:00:00 UTC in seconds since 1970. *)
Definition noon : Z := 1741089600.

(** The database after a first [GET /epochs] that downloaded [svs]. *)
Definition db_of (svs : list pyval) : redis :=
  (store_state_vectors svs ∅).1.

(** Stand-ins for the collaborators: a [float] that knows the texts of
    the mock samples, a transform that hands the coordinates back and a
    geocoder that finds no place at any zoom level. *)
Definition py_float (s : string) : option float :=
  if String.eqb s "0.0" then Some 0%float
  else if String.eqb s "1.0" then Some 1%float
  else if String.eqb s "2.0" then Some 2%float
  else if String.eqb s "3.0" then Some 3%float
  else if String.eqb s "4.0" then Some 4%float
  else if String.eqb s "1000.0" then Some 1000%float
  else if String.eqb s "2000.0" then Some 2000%float
  else if String.eqb s "3000.0" then Some 3000%float
  else None.

(** A C library whose [pow], asked for a square, returns the correctly
    rounded one and reports an overflow as a range error. The module asks
    for no other power. *)
Definition libm_pow (x y : float) : float * Z :=
  let r := PrimFloat.mul x x in
  (r, if PrimFloat.is_infinity r then ERANGE else 0).

(** A C library whose [pow] is not correctly rounded: at 7.964 it returns
    the float just below the rounded square, as glibc 2.36 does; elsewhere it
    answers as [libm_pow]. *)
Definition glibc_pow (x y : float) : float * Z :=
  if PrimFloat.eqb x 0x1.fdb22d0e56042p+2 then (0x1.fb670196d8f50p+5%float, 0)
  else libm_pow x y.

Definition gcrs_to_itrs (x y z : float) (t : Time.struct_time)
  : outcome (float * float * float) := Ok (x, y, z).

Definition reverse (lat lon : float) (zoom : Z)
  : outcome (option (option string)) := Ok None.

End Mock.

(** * Properties *)

(** ** Python values *)

Fixpoint pyval_ind (P : pyval → Prop)
    (HNone : P VNone) (HStr : ∀ s, P (VStr s))
    (HDict : ∀ d, Forall (λ kv, P kv.2) d → P (VDict d))
    (HList : ∀ l, Forall P l → P (VList l))
    (v : pyval) : P v :=
  match v with
  | VNone => HNone
  | VStr s => HStr s
  | VDict d =>
      HDict d
        ((fix go (d : list (string * pyval)) : Forall (λ kv, P kv.2) d :=
            match d with
            | [] => @List.Forall_nil _ (λ kv, P kv.2)
            | kv :: d' =>
                @List.Forall_cons _ (λ kv, P kv.2) kv d'
                  (pyval_ind P HNone HStr HDict HList kv.2) (go d')
            end) d)
  | VList l =>
      HList l
        ((fix go (l : list pyval) : Forall P l :=
            match l with
            | [] => @List.Forall_nil _ P
            | w :: l' =>
                @List.Forall_cons _ P w l' (pyval_ind P HNone HStr HDict HList w) (go l')
            end) l)
  end.

Lemma distinct_dict_get (d : list (string * pyval)) k v :
  PyVal.distinct (map fst d) = true →
  (k, v) ∈ d →
  PyVal.dict_get k d = Some v.
Proof.
  induction d as [|[k' v'] d IH]; simpl; intros Hd Hin.
  - by apply elem_of_nil in Hin.
  - apply andb_prop in Hd as [Hk Hd].
    apply elem_of_cons in Hin as [Heq | Hin].
    + inversion Heq; subst. by rewrite String.eqb_refl.
    + destruct (String.eqb k k') eqn:E; [| by apply IH].
      apply String.eqb_eq in E; subst k'.
      apply negb_true_iff in Hk.
      assert (existsb (String.eqb k) (map fst d) = true) as Hex; [| congruence].
      apply existsb_exists. exists k. split; [| apply String.eqb_refl].
      apply in_map_iff. exists (k, v). split; [done |].
      by apply list_elem_of_In.
Qed.

Lemma all_items_forall {A} (f : string → A → bool) (d : list (string * A)) :
  PyVal.all_items f d = true ↔ ∀ k v, (k, v) ∈ d → f k v = true.
Proof.
  induction d as [|[k v] d IH]; simpl.
  - split; [intros _ k v Hin; by apply elem_of_nil in Hin | done].
  - rewrite andb_true_iff, IH. split.
    + intros [Hf Hall] k' v' Hin.
      apply elem_of_cons in Hin as [Heq | Hin]; [by inversion Heq; subst | eauto].
    + intros H. split; [apply H; left | intros k' v' Hin; apply H; by right].
Qed.

Lemma all_pairs_refl {A} (f : A → A → bool) (l : list A) :
  Forall (λ x, f x x = true) l → PyVal.all_pairs f l l = true.
Proof. induction 1 as [|x l Hx _ IH]; simpl; [done | by rewrite Hx, IH]. Qed.

(** A value equals itself. *)
Lemma eqb_refl (v : pyval) : PyVal.wf v = true → PyVal.eqb v v = true.
Proof.
  induction v as [| s | d IH | l IH] using pyval_ind; simpl; intros Hwf.
  - done.
  - apply String.eqb_refl.
  - apply andb_prop in Hwf as [Hdist Hall].
    rewrite Nat.eqb_refl; simpl.
    apply all_items_forall. intros k v Hin.
    rewrite (distinct_dict_get d k v Hdist Hin).
    rewrite Forall_forall in IH. apply (IH (k, v) Hin).
    by apply (proj1 (all_items_forall _ _) Hall k v).
  - apply all_pairs_refl.
    rewrite Forall_forall in IH |- *. intros x Hin. apply IH; [done |].
    rewrite forallb_forall in Hwf. apply Hwf. by apply list_elem_of_In.
Qed.

(** ** The store and its index *)

Lemma index_ok_empty : index_ok ∅.
Proof.
  split; unfold Rd.index; rewrite lookup_empty.
  - constructor.
  - intros k Hk. by apply elem_of_nil in Hk.
Qed.

(** A listed key is never the name of the index itself. *)
Lemma index_ok_not_iss_keys db k :
  index_ok db → k ∈ Rd.index db → k ≠ Rd.iss_keys.
Proof.
  intros [_ Hmem] Hin ->. destruct (Hmem _ Hin) as [v Hv].
  unfold Rd.index in Hin. rewrite Hv in Hin. by apply elem_of_nil in Hin.
Qed.

(** Writing a sample under a key that holds a sample, or under a key other
    than the index name, keeps the index as it is. *)
Lemma index_set_sample db k v :
  (k ≠ Rd.iss_keys ∨ ∃ w, db !! k = Some (RString w)) →
  Rd.index (<[k := RString v]> db) = Rd.index db.
Proof.
  intros H. unfold Rd.index.
  destruct (decide (k = Rd.iss_keys)) as [-> | Hne].
  - destruct H as [? | [w Hw]]; [done |].
    by rewrite lookup_insert_eq, Hw.
  - by rewrite lookup_insert_ne.
Qed.

Lemma index_ok_set db k v :
  index_ok db →
  (k ≠ Rd.iss_keys ∨ ∃ w, db !! k = Some (RString w)) →
  index_ok (<[k := RString v]> db).
Proof.
  intros [Hnd Hmem] Hk. split; rewrite index_set_sample by done; [done |].
  intros k' Hin. destruct (decide (k = k')) as [-> | Hne].
  - exists v. apply lookup_insert_eq.
  - rewrite lookup_insert_ne by done. by apply Hmem.
Qed.

(** Appending a key that has a sample and is not listed yet. *)
Lemma index_ok_rpush db k l :
  index_ok db →
  Rd.index db = l →
  k ≠ Rd.iss_keys →
  k ∉ l →
  (∃ v, db !! k = Some (RString v)) →
  index_ok (<[Rd.iss_keys := RList (l ++ [k])]> db).
Proof.
  intros Hok Hl Hne Hnotin Hk. pose proof Hok as [Hnd Hmem].
  split; unfold Rd.index at 1; rewrite lookup_insert_eq.
  - apply NoDup_app. subst l. split_and!; [done | | apply NoDup_singleton].
    intros x Hx ->%list_elem_of_singleton. done.
  - intros k' [Hin | ->%list_elem_of_singleton]%elem_of_app.
    + subst l. rewrite lookup_insert_ne; [by apply Hmem |].
      intros Heq. by apply (index_ok_not_iss_keys db k' Hok Hin).
    + rewrite lookup_insert_ne by done. done.
Qed.

(** One sample of the feed keeps the index sound, however the step ends. *)
Lemma store_state_vector_index_ok sv db :
  index_ok db → index_ok (store_state_vector sv db).1.
Proof.
  intros Hok. unfold store_state_vector, bind, lift, ret.
  destruct (PyVal.getitem sv "EPOCH") as [epoch_v | e]; [| done].
  destruct epoch_v as [| epoch | |]; simpl; try done.
  unfold Rd.exists_.
  destruct (db !! epoch) as [[stored | l] |] eqn:Hlook.
  - (* a sample is stored under the epoch *)
    rewrite bool_decide_eq_true_2 by eauto. simpl.
    unfold Rd.get. rewrite Hlook. simpl.
    destruct (PyVal.eqb stored sv); simpl; [done |].
    apply index_ok_set; eauto.
  - (* the epoch names a list *)
    rewrite bool_decide_eq_true_2 by eauto. simpl.
    unfold Rd.get. by rewrite Hlook.
  - (* a new epoch *)
    rewrite bool_decide_eq_false_2 by (intros [? ?]; done). simpl.
    unfold Rd.rpush.
    destruct (decide (epoch = Rd.iss_keys)) as [-> | Hne].
    + rewrite lookup_insert_eq. simpl.
      split; unfold Rd.index; rewrite lookup_insert_eq;
        [constructor | intros k Hk; by apply elem_of_nil in Hk].
    + rewrite lookup_insert_ne by done.
      assert (index_ok (<[epoch := RString sv]> db)) as Hok'
        by (apply index_ok_set; auto).
      assert (epoch ∉ Rd.index db) as Hfresh.
      { intros Hin. destruct Hok as [_ Hmem].
        destruct (Hmem _ Hin) as [v Hv]. congruence. }
      destruct (db !! Rd.iss_keys) as [[w | l] |] eqn:Hidx; simpl.
      * done.
      * apply index_ok_rpush; try done.
        -- rewrite index_set_sample by auto. unfold Rd.index. by rewrite Hidx.
        -- unfold Rd.index in Hfresh. by rewrite Hidx in Hfresh.
        -- exists sv. apply lookup_insert_eq.
      * change [epoch] with (app [] [epoch]).
        apply index_ok_rpush; try done.
        -- rewrite index_set_sample by auto. unfold Rd.index. by rewrite Hidx.
        -- apply not_elem_of_nil.
        -- exists sv. apply lookup_insert_eq.
Qed.

Lemma store_state_vectors_index_ok svs db :
  index_ok db → index_ok (store_state_vectors svs db).1.
Proof.
  revert db. induction svs as [| sv svs IH]; intros db Hok; simpl; [done |].
  unfold bind.
  pose proof (store_state_vector_index_ok sv db Hok) as Hstep.
  destruct (store_state_vector sv db) as [db1 [ev | e]]; simpl in *; [| done].
  specialize (IH db1 Hstep).
  destruct (store_state_vectors svs db1) as [db2 [evs | e]]; simpl in *; done.
Qed.

(** Reading leaves the database as it is. *)
Lemma load_all_reads epoch_keys db : (load_all epoch_keys db).1 = db.
Proof.
  induction epoch_keys as [| k ks IH]; simpl; [done |].
  unfold bind, Rd.get, lift.
  destruct (db !! k) as [[v | l] |]; simpl; try done.
  destruct (load_all ks db) as [db' [svs | e]]; simpl in *; done.
Qed.

(** After its ingestion loop [read_iss_data] only reads. *)
Lemma read_iss_data_db state_vectors limit offset db svs :
  PyVal.truthy state_vectors = true →
  PyVal.iter state_vectors = Ok svs →
  (read_iss_data (Parsed state_vectors) limit offset db).1
  = (store_state_vectors svs db).1.
Proof.
  intros Htruthy Hiter. unfold read_iss_data.
  rewrite Htruthy; simpl. unfold bind at 1. unfold lift at 1. rewrite Hiter.
  unfold bind at 1.
  destruct (store_state_vectors svs db) as [db1 [evs | e]]; simpl; [| done].
  unfold bind at 1. unfold lift at 1.
  destruct (PyVal.len state_vectors) as [n | e]; simpl; [| done].
  destruct (query_int limit n) as [lim |]; [| done].
  destruct (query_int offset 0) as [off |]; [| done].
  destruct (n <=? off); [done |].
  unfold bind, Rd.lrange_all.
  destruct (db1 !! Rd.iss_keys) as [[v | l] |]; simpl; try done.
  pose proof (load_all_reads l db1) as Hl.
  destruct (load_all l db1) as [db2 [stored | e]]; simpl in *; done.
Qed.

Lemma read_iss_data_index_ok fetched limit offset db :
  index_ok db → index_ok (read_iss_data fetched limit offset db).1.
Proof.
  intros Hok. destruct fetched as [| | | state_vectors]; try done.
  destruct (PyVal.truthy state_vectors) eqn:Htruthy.
  - destruct (PyVal.iter state_vectors) as [svs | e] eqn:Hiter.
    + rewrite (read_iss_data_db _ _ _ _ svs) by done.
      by apply store_state_vectors_index_ok.
    + unfold read_iss_data. rewrite Htruthy; simpl.
      unfold bind, lift. by rewrite Hiter.
  - unfold read_iss_data. by rewrite Htruthy.
Qed.

Lemma after_requests_index_ok history db :
  index_ok db → index_ok (after_requests history db).
Proof.
  revert db. induction history as [| r history IH]; intros db Hok; [done |].
  apply IH. by apply read_iss_data_index_ok.
Qed.

(** C2. No duplicate index keys: in a database built by any history of
    [GET /epochs] requests, starting from the empty one, reconciling any
    further feed leaves every epoch at most once in the key index. The feed
    may repeat an epoch, may repeat epochs the store already has, and the
    loop may even stop midway on an exception. *)
Theorem index_has_no_duplicates
    (history : list epochs_request) (svs : list pyval) :
  NoDup (Rd.index (store_state_vectors svs (after_requests history ∅)).1).
Proof.
  apply store_state_vectors_index_ok, after_requests_index_ok, index_ok_empty.
Qed.

(** The two calls of an upsert, on a key that is new and is not the name of
    the key list. *)
Lemma store_new_epoch db sv k :
  PyVal.getitem sv "EPOCH" = Ok (VStr k) →
  k ≠ Rd.iss_keys →
  db !! k = None →
  (∀ w, db !! Rd.iss_keys ≠ Some (RString w)) →
  store_state_vector sv db
  = (<[Rd.iss_keys := RList (Rd.index db ++ [k])%list]> (<[k := RString sv]> db),
     Ok (AddingNewEpoch k)).
Proof.
  intros Hepoch Hne Hfresh Hslot.
  unfold store_state_vector, bind, lift, ret. rewrite Hepoch. simpl.
  unfold Rd.exists_. rewrite Hfresh.
  rewrite bool_decide_eq_false_2 by (intros [? ?]; done). simpl.
  unfold Rd.rpush, Rd.index. rewrite lookup_insert_ne by done.
  destruct (db !! Rd.iss_keys) as [[w | l] |] eqn:Hidx; simpl; try done.
  by destruct (Hslot w).
Qed.

Lemma store_same_sample db sv k :
  PyVal.wf sv = true →
  PyVal.getitem sv "EPOCH" = Ok (VStr k) →
  db !! k = Some (RString sv) →
  store_state_vector sv db = (db, Ok AlreadyExists).
Proof.
  intros Hwf Hepoch Hstored.
  unfold store_state_vector, bind, lift, ret. rewrite Hepoch. simpl.
  unfold Rd.exists_. rewrite Hstored.
  rewrite bool_decide_eq_true_2 by eauto. simpl.
  unfold Rd.get. rewrite Hstored. simpl.
  by rewrite eqb_refl.
Qed.

(** C3, as amended. Idempotent upsert: for every sample [sv] whose epoch [k]
    is not yet a key of the database and is not the name of the key list
    (the list itself being absent or a list), the first upsert stores [sv],
    appends [k] to the index and reports the insertion; the second, with the
    same [sv], finds the stored value equal, reports that and leaves the
    database exactly as it was. The index is one key longer in total. *)
Theorem upsert_twice_appends_once (db : redis) (sv : pyval) (k : string) :
  PyVal.wf sv = true →
  PyVal.getitem sv "EPOCH" = Ok (VStr k) →
  k ≠ Rd.iss_keys →
  db !! k = None →
  (∀ w, db !! Rd.iss_keys ≠ Some (RString w)) →
  ∃ db1,
    store_state_vector sv db = (db1, Ok (AddingNewEpoch k)) ∧
    db1 !! k = Some (RString sv) ∧
    Rd.index db1 = (Rd.index db ++ [k])%list ∧
    store_state_vector sv db1 = (db1, Ok AlreadyExists) ∧
    length (Rd.index (store_state_vector sv db1).1)
    = S (length (Rd.index db)).
Proof.
  intros Hwf Hepoch Hne Hfresh Hslot.
  eexists. split; [by apply store_new_epoch |].
  assert ((<[Rd.iss_keys := RList (Rd.index db ++ [k])%list]>
             (<[k := RString sv]> db) : redis) !! k = Some (RString sv)) as Hk.
  { rewrite lookup_insert_ne by done. apply lookup_insert_eq. }
  assert (Rd.index (<[Rd.iss_keys := RList (Rd.index db ++ [k])%list]>
                      (<[k := RString sv]> db)) = (Rd.index db ++ [k])%list) as Hidx.
  { unfold Rd.index at 1. by rewrite lookup_insert_eq. }
  split_and!; [done | done | by apply (store_same_sample _ sv k) |].
  rewrite (store_same_sample _ sv k) by done. simpl.
  rewrite Hidx, length_app. simpl. lia.
Qed.

Lemma upsert_twice_appends_once_witness :
  ∃ db1,
    store_state_vector Mock.sv0 ∅
    = (db1, Ok (AddingNewEpoch "2025-063T12:00:00.000Z")) ∧
    db1 !! "2025-063T12:00:00.000Z" = Some (RString Mock.sv0) ∧
    Rd.index db1 = (Rd.index ∅ ++ ["2025-063T12:00:00.000Z"])%list ∧
    store_state_vector Mock.sv0 db1 = (db1, Ok AlreadyExists) ∧
    length (Rd.index (store_state_vector Mock.sv0 db1).1)
    = S (length (Rd.index (∅ : redis))).
Proof.
  apply (upsert_twice_appends_once ∅ Mock.sv0 "2025-063T12:00:00.000Z").
  - reflexivity.
  - reflexivity.
  - discriminate.
  - apply lookup_empty.
  - intros w. rewrite lookup_empty. discriminate.
Defined.

(** C3 as first stated fails on the key that names the key list: on the
    empty database the epoch ["iss_keys"] is new, yet the first upsert
    writes the sample under that name and then cannot push onto it. The
    call ends in an exception and the index has not grown. *)
Lemma upsert_index_name_counterexample :
  PyVal.wf Mock.sv_index_name = true ∧
  PyVal.getitem Mock.sv_index_name "EPOCH" = Ok (VStr "iss_keys") ∧
  (∅ : redis) !! "iss_keys" = None ∧
  store_state_vector Mock.sv_index_name ∅
  = (<["iss_keys" := RString Mock.sv_index_name]> ∅, Raise ResponseError) ∧
  length (Rd.index (store_state_vector Mock.sv_index_name ∅).1)
  = length (Rd.index (∅ : redis)).
Proof. split_and!; reflexivity. Qed.

(** ** [GET /epochs] after the ingestion loop *)

Lemma chars_length s : length (PyVal.chars s) = String.length s.
Proof. induction s as [| c s IH]; simpl; [done | by rewrite IH]. Qed.

(** A value that passes [if not state_vectors] can be iterated and has the
    length of its iteration, which is at least one. *)
Lemma truthy_iter_len state_vectors :
  PyVal.truthy state_vectors = true →
  ∃ svs, PyVal.iter state_vectors = Ok svs ∧
         PyVal.len state_vectors = Ok (Z.of_nat (length svs)) ∧
         (0 < length svs)%nat.
Proof.
  destruct state_vectors as [| s | d | l]; simpl; intros H; [done | | |].
  - exists (PyVal.chars s). rewrite chars_length. split_and!; try done.
    destruct s; simpl in *; [done | lia].
  - eexists. rewrite length_map. split_and!; try done.
    destruct d; simpl in *; [done | lia].
  - exists l. split_and!; try done. destruct l; simpl in *; [done | lia].
Qed.

Lemma iter_len state_vectors svs :
  PyVal.iter state_vectors = Ok svs →
  PyVal.len state_vectors = Ok (Z.of_nat (length svs)).
Proof.
  destruct state_vectors as [| s | d | l]; simpl; intros H; inversion H; subst.
  - by rewrite chars_length.
  - by rewrite length_map.
  - done.
Qed.

(** Once the loop has run to its end the handler checks the two parameters,
    in this order, against the length of the downloaded feed. *)
Lemma read_iss_data_after_ingestion state_vectors limit offset db svs db1 evs :
  PyVal.truthy state_vectors = true →
  PyVal.iter state_vectors = Ok svs →
  store_state_vectors svs db = (db1, Ok evs) →
  read_iss_data (Parsed state_vectors) limit offset db =
  let n := Z.of_nat (length svs) in
  match query_int limit n with
  | None => (db1, Ok (error_response "limit parameter must be an integer"))
  | Some lim =>
      match query_int offset 0 with
      | None => (db1, Ok (error_response "offset parameter must be an integer"))
      | Some off =>
          if n <=? off then
            (db1, Ok (error_response "offset param. out of range."))
          else
            (let* epoch_keys := Rd.lrange_all Rd.iss_keys in
             let* stored := load_all epoch_keys in
             ret (Json (VList (py_slice stored off (off + lim))))) db1
      end
  end.
Proof.
  intros Htruthy Hiter Hstore. unfold read_iss_data.
  rewrite Htruthy; simpl. unfold bind at 1. unfold lift at 1. rewrite Hiter.
  unfold bind at 1. rewrite Hstore.
  unfold bind at 1. unfold lift at 1. rewrite (iter_len _ _ Hiter).
  destruct (query_int limit _) as [lim |]; [| done].
  destruct (query_int offset 0) as [off |]; [| done].
  by destruct (_ <=? off).
Qed.

Lemma load_all_stored db (l : list string) :
  (∀ k, k ∈ l → ∃ v, db !! k = Some (RString v)) →
  load_all l db
  = (db, Ok (omap (λ k, match db !! k with
                        | Some (RString v) => Some v
                        | _ => None
                        end) l)).
Proof.
  induction l as [| k l IH]; intros Hmem; simpl; [done |].
  destruct (Hmem k) as [v Hv]; [by left |].
  unfold bind, Rd.get, lift, ret. rewrite Hv. simpl.
  rewrite IH by (intros k' Hk'; apply Hmem; by right).
  done.
Qed.

(** With a sound, non-empty index the listing is the stored samples in index
    order. *)
Lemma list_stored db (f : list pyval → response) :
  index_ok db →
  Rd.index db ≠ [] →
  (let* epoch_keys := Rd.lrange_all Rd.iss_keys in
   let* stored := load_all epoch_keys in
   ret (f stored)) db
  = (db, Ok (f (stored_samples db))).
Proof.
  intros [_ Hmem] Hne. unfold bind at 1. unfold Rd.lrange_all.
  unfold stored_samples. unfold Rd.index in *.
  destruct (db !! Rd.iss_keys) as [[w | l] |]; try done.
  unfold bind. by rewrite load_all_stored.
Qed.

(** A slice of [k] positions holds at most [k] elements. *)
Lemma py_slice_length {A} (l : list A) (a k : Z) :
  0 ≤ k → Z.of_nat (length (py_slice l a (a + k))) ≤ k.
Proof.
  intros Hk. unfold py_slice, slice_bound.
  rewrite length_take, length_drop.
  destruct (a <? 0) eqn:Ea; destruct (a + k <? 0) eqn:Eb; lia.
Qed.

(** C6, as amended. Offset validation: for every [GET /epochs] request
    whose download gave a non-empty feed, whose ingestion loop ran to its
    end, whose [limit] parameter is absent or an integer, and whose
    [offset] parameter parses as an integer greater than or equal to the
    length of the downloaded feed, the handler returns exactly
    [{'error': 'offset param. out of range.'}]. *)
Theorem offset_out_of_range
    (state_vectors : pyval) (limit : option string) (offset_text : string)
    (db db1 : redis) (svs : list pyval) (evs : list event) (lim off : Z) :
  PyVal.truthy state_vectors = true →
  PyVal.iter state_vectors = Ok svs →
  store_state_vectors svs db = (db1, Ok evs) →
  query_int limit (Z.of_nat (length svs)) = Some lim →
  PyInt.parse offset_text = Some off →
  Z.of_nat (length svs) ≤ off →
  read_iss_data (Parsed state_vectors) limit (Some offset_text) db
  = (db1, Ok (error_response "offset param. out of range.")).
Proof.
  intros Htruthy Hiter Hstore Hlim Hoff Hge.
  rewrite (read_iss_data_after_ingestion _ _ _ _ svs db1 evs) by done.
  simpl. rewrite Hlim. simpl. rewrite Hoff.
  by rewrite (proj2 (Z.leb_le _ _) Hge).
Qed.

Lemma offset_out_of_range_witness :
  read_iss_data (Parsed (VList Mock.mock_iss_data)) (Some "5") (Some " 2 ") ∅
  = (Mock.db_of Mock.mock_iss_data,
     Ok (error_response "offset param. out of range.")).
Proof.
  apply (offset_out_of_range (VList Mock.mock_iss_data) (Some "5") " 2 "
           ∅ (Mock.db_of Mock.mock_iss_data) Mock.mock_iss_data
           [AddingNewEpoch "2025-063T12:00:00.000Z";
            AddingNewEpoch "2025-063T12:01:00.000Z"] 5 2).
  - reflexivity.
  - reflexivity.
  - vm_compute. reflexivity.
  - reflexivity.
  - reflexivity.
  - simpl. lia.
Defined.

(** C6 as first stated fails when [limit] is no integer: with two samples
    in the feed and [offset=5], the handler answers the [limit] error and
    never reaches the offset check. Nor is the count the number of stored
    samples: a feed that lists one sample twice stores one sample, and
    [offset=1] is then answered with an empty list. *)
Lemma offset_out_of_range_counterexample :
  (PyInt.parse "5" = Some 5 ∧
   Z.of_nat (length Mock.mock_iss_data) ≤ 5 ∧
   (read_iss_data (Parsed (VList Mock.mock_iss_data))
      (Some "abc") (Some "5") ∅).2
   = Ok (error_response "limit parameter must be an integer")) ∧
  (let served :=
     read_iss_data (Parsed (VList [Mock.sv0; Mock.sv0])) None (Some "1") ∅ in
   PyInt.parse "1" = Some 1 ∧
   stored_samples served.1 = [Mock.sv0] ∧
   served.2 = Ok (Json (VList []))).
Proof.
  split.
  - split_and!; [reflexivity | simpl; lia | reflexivity].
  - intros served. split_and!; reflexivity.
Qed.

(** C10. The default limit and the offset check use the length of the
    downloaded feed: when the index lists more keys than the feed has
    samples, a request without [limit] and with a valid offset gets the
    slice of the stored samples from [offset] to [offset] plus the feed
    length, hence at most feed-length samples, and an integer offset from
    the feed length up to the last position of the stored list is answered
    ['offset param. out of range.']. *)
Theorem feed_length_bounds_the_listing
    (state_vectors : pyval) (db db1 : redis)
    (svs : list pyval) (evs : list event) :
  index_ok db →
  PyVal.truthy state_vectors = true →
  PyVal.iter state_vectors = Ok svs →
  store_state_vectors svs db = (db1, Ok evs) →
  (length svs < length (Rd.index db1))%nat →
  let n := Z.of_nat (length svs) in
  (∀ offset off,
     query_int offset 0 = Some off → off < n →
     let listing := py_slice (stored_samples db1) off (off + n) in
     read_iss_data (Parsed state_vectors) None offset db
     = (db1, Ok (Json (VList listing))) ∧
     Z.of_nat (length listing) ≤ n) ∧
  (∀ limit offset off,
     is_Some (query_int limit n) →
     query_int offset 0 = Some off →
     n ≤ off < Z.of_nat (length (Rd.index db1)) →
     read_iss_data (Parsed state_vectors) limit offset db
     = (db1, Ok (error_response "offset param. out of range."))).
Proof.
  intros Hok Htruthy Hiter Hstore Hmore n.
  assert (index_ok db1) as Hok1.
  { pose proof (store_state_vectors_index_ok svs db Hok) as H.
    by rewrite Hstore in H. }
  assert (Rd.index db1 ≠ []) as Hne.
  { intros Heq. rewrite Heq in Hmore. simpl in Hmore. lia. }
  split.
  - intros offset off Hoff Hlt listing. split.
    + rewrite (read_iss_data_after_ingestion _ _ _ _ svs db1 evs) by done.
      fold n. cbv zeta. simpl. rewrite Hoff.
      rewrite (proj2 (Z.leb_gt _ _) Hlt).
      by rewrite (list_stored db1 (λ stored, Json (VList (py_slice stored off (off + n))))).
    + apply py_slice_length. lia.
  - intros limit offset off [lim Hlim] Hoff [Hge _].
    rewrite (read_iss_data_after_ingestion _ _ _ _ svs db1 evs) by done.
    fold n. cbv zeta. rewrite Hlim, Hoff.
    by rewrite (proj2 (Z.leb_le _ _) Hge).
Qed.

Lemma feed_length_bounds_the_listing_witness :
  let db := Mock.db_of [Mock.sv0; Mock.sv1; Mock.sv5] in
  let state_vectors := VList Mock.mock_iss_data in
  stored_samples db = [Mock.sv0; Mock.sv1; Mock.sv5] ∧
  read_iss_data (Parsed state_vectors) None None db
  = (db, Ok (Json (VList [Mock.sv0; Mock.sv1]))) ∧
  read_iss_data (Parsed state_vectors) None (Some "2") db
  = (db, Ok (error_response "offset param. out of range.")).
Proof.
  intros db state_vectors.
  assert (index_ok db) as Hok
    by apply store_state_vectors_index_ok, index_ok_empty.
  assert (store_state_vectors Mock.mock_iss_data db
          = (db, Ok [AlreadyExists; AlreadyExists])) as Hstore
    by (vm_compute; reflexivity).
  assert (length Mock.mock_iss_data < length (Rd.index db))%nat as Hmore
    by (vm_compute; lia).
  destruct (feed_length_bounds_the_listing state_vectors db db
              Mock.mock_iss_data _ Hok eq_refl eq_refl Hstore Hmore)
    as [Hdefault Hrange].
  split_and!.
  - reflexivity.
  - destruct (Hdefault None 0 eq_refl) as [Hserved _]; [simpl; lia |].
    rewrite Hserved. reflexivity.
  - apply (Hrange None (Some "2") 2).
    + simpl. eauto.
    + reflexivity.
    + change (Z.of_nat (length (Rd.index db))) with 3. simpl. lia.
Defined.

(** ** [GET /now] *)

(** C5. Empty store: when the key list is absent or empty, [now_epoch_speed]
    returns [{'error': 'Database is empty.'}] and leaves the database as it
    is, whatever the clock reads and whatever [float] would do: neither the
    scan nor the speed computation takes part in the answer. *)
Theorem now_on_empty_store
    (py_float : string → option float)
    (libm_pow : float → float → float * Z)
    (now_time_in_seconds : Z) (db : redis) :
  db !! Rd.iss_keys = None ∨ db !! Rd.iss_keys = Some (RList []) →
  now_epoch_speed py_float libm_pow now_time_in_seconds db
  = (db, Ok (error_response "Database is empty.")).
Proof.
  intros Hempty. unfold now_epoch_speed, bind, Rd.lrange_all.
  by destruct Hempty as [-> | ->].
Qed.

Lemma now_on_empty_store_witness :
  now_epoch_speed Mock.py_float Mock.libm_pow Mock.noon ∅
  = (∅, Ok (error_response "Database is empty.")).
Proof.
  apply (now_on_empty_store Mock.py_float Mock.libm_pow Mock.noon ∅).
  left. apply lookup_empty.
Defined.

(** [strptime] reports every failure as [ValueError]. *)
Lemma resolve_raises year julian hour minute second e :
  Time.resolve year julian hour minute second = Raise e → e = ValueError.
Proof.
  unfold Time.resolve. destruct (year <? 1); [by inversion 1 |].
  destruct (Time.max_ordinal <? _); by inversion 1.
Qed.

Lemma strptime_epoch_raises s e :
  Time.strptime_epoch s = Raise e → e = ValueError.
Proof.
  unfold Time.strptime_epoch.
  destruct (_ ≫= _) as [[[[[year julian] hour] minute] second] |].
  - apply resolve_raises.
  - by inversion 1.
Qed.

(** A key that does not parse stops the scan, wherever it stands in the
    list and whatever the scan has retained so far. *)
Lemma closest_scan_malformed now epoch_keys closest min_time_diff k :
  k ∈ epoch_keys →
  Time.strptime_epoch k = Raise ValueError →
  closest_scan now epoch_keys closest min_time_diff = Raise ValueError.
Proof.
  intros Hin Hbad. revert closest min_time_diff.
  induction epoch_keys as [| k' rest IH]; intros closest min_time_diff.
  - by apply elem_of_nil in Hin.
  - simpl. destruct (Time.strptime_epoch k') as [t | e] eqn:Hparse; simpl.
    + apply elem_of_cons in Hin as [-> | Hin]; [congruence |].
      destruct (abs_below _ _); by apply IH.
    + by rewrite (strptime_epoch_raises k' e Hparse).
Qed.

(** C4, what the code does. A stored key that does not parse is fatal for
    the whole request and is not recovered: [now_epoch_speed] ends in the
    [ValueError] of [time.strptime], it returns no payload. *)
Theorem now_raises_on_malformed_key
    (py_float : string → option float)
    (libm_pow : float → float → float * Z) (now_time_in_seconds : Z)
    (db : redis) (k : string) :
  k ∈ Rd.index db →
  Time.strptime_epoch k = Raise ValueError →
  now_epoch_speed py_float libm_pow now_time_in_seconds db = (db, Raise ValueError).
Proof.
  intros Hin Hbad. unfold now_epoch_speed, bind, Rd.lrange_all.
  unfold Rd.index in Hin.
  destruct (db !! Rd.iss_keys) as [[w | l] |];
    try (by apply elem_of_nil in Hin).
  destruct l as [| k0 l]; [by apply elem_of_nil in Hin |].
  unfold lift. by rewrite (closest_scan_malformed _ _ _ _ k Hin Hbad).
Qed.

Lemma now_raises_on_malformed_key_witness :
  let db := Mock.db_of [Mock.sv0; Mock.sv_day400] in
  Rd.index db = ["2025-063T12:00:00.000Z"; "2025-400T12:00:00.000Z"] ∧
  now_epoch_speed Mock.py_float Mock.libm_pow Mock.noon db = (db, Raise ValueError).
Proof.
  intros db. split; [reflexivity |].
  apply (now_raises_on_malformed_key Mock.py_float Mock.libm_pow Mock.noon db
           "2025-400T12:00:00.000Z").
  - change (Rd.index db)
      with ["2025-063T12:00:00.000Z"; "2025-400T12:00:00.000Z"].
    apply list_elem_of_In. simpl. auto.
  - reflexivity.
Defined.

Lemma seconds_before_distance now k d :
  seconds_before now k d → time_distance now k = Ok d.
Proof.
  intros (t & Hparse & -> & Hd). unfold time_distance. rewrite Hparse. simpl.
  f_equal. lia.
Qed.

(** Where the scan is right. From a retained key [c] with a bound [m] that
    is not negative, and over keys none of which lies after the target, the
    scan either keeps [c], no key being closer than [m], or ends on the
    first of the keys of least distance. *)
Lemma closest_scan_past_from now keys c m :
  0 ≤ m →
  Forall (λ k, ∃ d, seconds_before now k d) keys →
  (closest_scan now keys (Some c) (Seconds m) = Ok (Some c) ∧
   Forall (λ k, ∃ d, seconds_before now k d ∧ m ≤ d) keys) ∨
  (∃ pre k post d,
     keys = (pre ++ k :: post)%list ∧
     closest_scan now keys (Some c) (Seconds m) = Ok (Some k) ∧
     seconds_before now k d ∧ d < m ∧
     Forall (λ k', ∃ d', seconds_before now k' d' ∧ d < d') pre ∧
     Forall (λ k', ∃ d', seconds_before now k' d' ∧ d ≤ d') post).
Proof.
  intros Hm Hpast. revert c m Hm.
  induction Hpast as [| k0 rest [d0 Hk0] Hrest IH]; intros c m Hm.
  - left. by split.
  - pose proof Hk0 as (t0 & Hparse & Hd0 & Hpos).
    simpl. rewrite Hparse. simpl. rewrite <- Hd0.
    rewrite Z.abs_eq by done.
    destruct (d0 <? m) eqn:Hlt.
    + apply Z.ltb_lt in Hlt. right.
      destruct (IH k0 d0 Hpos)
        as [[Hscan Hall] | (pre & k & post & d & -> & Hscan & Hk & Hd & Hpre & Hpost)].
      * exists [], k0, rest, d0. split_and!; try done.
      * exists (k0 :: pre), k, post, d. split_and!; try done; [lia |].
        constructor; [| done]. exists d0. split; [done | lia].
    + apply Z.ltb_ge in Hlt.
      destruct (IH c m Hm)
        as [[Hscan Hall] | (pre & k & post & d & -> & Hscan & Hk & Hd & Hpre & Hpost)].
      * left. split; [done |]. constructor; [| done]. by exists d0.
      * right. exists (k0 :: pre), k, post, d. split_and!; try done.
        constructor; [| done]. exists d0. split; [done | lia].
Qed.

(** When no stored key lies after the target, the scan returns a key of
    least distance, and among several the first in scan order. *)
Lemma closest_scan_past now keys :
  keys ≠ [] →
  Forall (λ k, ∃ d, seconds_before now k d) keys →
  ∃ pre k post d,
    keys = (pre ++ k :: post)%list ∧
    closest_scan now keys None Infinity = Ok (Some k) ∧
    time_distance now k = Ok d ∧
    Forall (λ k', ∃ d', time_distance now k' = Ok d' ∧ d < d') pre ∧
    Forall (λ k', ∃ d', time_distance now k' = Ok d' ∧ d ≤ d') post.
Proof.
  intros Hne Hpast. destruct keys as [| k0 rest]; [done |].
  apply Forall_cons in Hpast as [[d0 Hk0] Hrest].
  pose proof Hk0 as (t0 & Hparse & Hd0 & Hpos).
  simpl. rewrite Hparse. simpl. rewrite <- Hd0.
  assert (∀ (b : Z) (R : Z → Z → Prop) l,
            Forall (λ k', ∃ d', seconds_before now k' d' ∧ R b d') l →
            Forall (λ k', ∃ d', time_distance now k' = Ok d' ∧ R b d') l)
    as Hweaken.
  { intros b R l Hl. eapply Forall_impl; [exact Hl |].
    intros k' (d' & Hk' & HR).
    exists d'. split; [by apply seconds_before_distance | done]. }
  destruct (closest_scan_past_from now rest k0 d0 Hpos Hrest)
    as [[Hscan Hall] | (pre & k & post & d & -> & Hscan & Hk & Hd & Hpre & Hpost)].
  - exists [], k0, rest, d0. split_and!; try done.
    + by apply seconds_before_distance.
    + by apply (Hweaken d0 Z.le).
  - exists (k0 :: pre), k, post, d. split_and!; try done.
    + by apply seconds_before_distance.
    + constructor; [| by apply (Hweaken d Z.lt)].
      exists d0. split; [by apply seconds_before_distance | lia].
    + by apply (Hweaken d Z.le).
Qed.

(** C1, what the code does. The scan stores the signed difference in
    [min_time_diff]: after it retains a key that lies after the target the
    bound is negative and no later key can pass [abs(..) < min_time_diff].
    With the keys 12:05 and 12:00 in this order and the target at 12:00 the
    scan returns the first key, 300 seconds away, although the second is at
    distance 0. *)
Theorem scan_keeps_a_farther_key :
  let keys := ["2025-063T12:05:00.000Z"; "2025-063T12:00:00.000Z"] in
  closest_scan Mock.noon keys None Infinity
  = Ok (Some "2025-063T12:05:00.000Z") ∧
  time_distance Mock.noon "2025-063T12:05:00.000Z" = Ok 300 ∧
  time_distance Mock.noon "2025-063T12:00:00.000Z" = Ok 0 ∧
  (now_epoch_speed Mock.py_float Mock.libm_pow Mock.noon (Mock.db_of [Mock.sv5; Mock.sv0])).2
  = Ok (SpeedReport "2025-063T12:05:00.000Z" 3%float).
Proof. split_and!; reflexivity. Qed.

(** ** [GET /epochs/<epoch>/location] *)

Lemma epoch_data_reads epoch db : (epoch_data epoch db).1 = db.
Proof.
  unfold epoch_data, bind, Rd.exists_, Rd.get, lift, ret.
  destruct (db !! epoch) as [[v | l] |] eqn:Hlook.
  - rewrite bool_decide_eq_true_2 by eauto. simpl. by rewrite Hlook.
  - rewrite bool_decide_eq_true_2 by eauto. simpl. by rewrite Hlook.
  - by rewrite bool_decide_eq_false_2 by (intros [? ?]; done).
Qed.

(** The other handlers only read the database. *)
Ltac read_only :=
  repeat first
    [ progress (unfold bind, lift, ret, raise; simpl)
    | match goal with
      | |- context [match ?c with _ => _ end] => destruct c
      end ];
  try done.

Lemma epoch_speed_reads py_float libm_pow epoch db :
  (epoch_speed py_float libm_pow epoch db).1 = db.
Proof.
  unfold epoch_speed. unfold bind at 1.
  pose proof (epoch_data_reads epoch db) as Hdata.
  destruct (epoch_data epoch db) as [db0 [state_vec | e]];
    simpl in Hdata; subst db0; [| done].
  read_only.
Qed.

Lemma now_epoch_speed_reads py_float libm_pow now db :
  (now_epoch_speed py_float libm_pow now db).1 = db.
Proof.
  unfold now_epoch_speed, bind, Rd.lrange_all, lift.
  destruct (db !! Rd.iss_keys) as [[w | [| k l]] |]; try done.
  destruct (closest_scan now (k :: l) None Infinity) as [[c |] | e]; try done.
  apply epoch_speed_reads.
Qed.

Lemma epoch_location_reads py_float gcrs_to_itrs reverse epoch db :
  (epoch_location py_float gcrs_to_itrs reverse epoch db).1 = db.
Proof.
  unfold epoch_location. unfold bind at 1.
  pose proof (epoch_data_reads epoch db) as Hdata.
  destruct (epoch_data epoch db) as [db0 [state_vec | e]];
    simpl in Hdata; subst db0; [| done].
  read_only.
Qed.

(** The module never binds the name [jsonify]. *)
Lemma jsonify_unbound : load_global "jsonify" = Raise (NameError "jsonify").
Proof. reflexivity. Qed.

(** C8. On the success path of the location route, a sample whose
    coordinates are extracted and whose timestamp is converted (and for
    which the transform and the geocoder answer), [epoch_location] ends in
    [NameError] for the name [jsonify] instead of returning; the only
    payload the handler ever returns is the one of its error branch. *)
Theorem location_success_path_raises
    (py_float : string → option float)
    (gcrs_to_itrs :
       float → float → float → Time.struct_time → outcome (float * float * float))
    (reverse : float → float → Z → outcome (option (option string)))
    (epoch : string) (db : redis) :
  let served := epoch_location py_float gcrs_to_itrs reverse epoch db in
  (∀ state_vec lat lon alt geolocation,
     epoch_data epoch db = (db, Ok state_vec) →
     compute_location_astropy py_float gcrs_to_itrs state_vec
     = Ok (Some (lat, lon, alt)) →
     compute_nearest_geolocation reverse lat lon = Ok geolocation →
     served = (db, Raise (NameError "jsonify"))) ∧
  (∀ db' r,
     served = (db', Ok r) →
     r = error_response "Failed to Extract Latitude, Longitude, and Height.").
Proof.
  intros served. subst served. unfold epoch_location. split.
  - intros state_vec lat lon alt geolocation Hdata Hloc Hgeo.
    unfold bind at 1. rewrite Hdata.
    unfold bind at 1. unfold lift at 1. rewrite Hloc.
    unfold bind at 1. unfold lift at 1. rewrite Hgeo.
    unfold bind, lift. by rewrite jsonify_unbound.
  - intros db' r. unfold bind at 1.
    destruct (epoch_data epoch db) as [db0 [state_vec | e]]; [| by inversion 1].
    unfold bind at 1. unfold lift at 1.
    destruct (compute_location_astropy _ _ state_vec)
      as [[[[lat lon] alt] |] | e]; [| | by inversion 1].
    + unfold bind at 1. unfold lift at 1.
      destruct (compute_nearest_geolocation reverse lat lon) as [g | e];
        [| by inversion 1].
      unfold bind, lift. rewrite jsonify_unbound. by inversion 1.
    + unfold ret. by inversion 1.
Qed.

Lemma location_success_path_raises_witness :
  let db := Mock.db_of Mock.mock_iss_data in
  epoch_data "2025-063T12:00:00.000Z" db = (db, Ok Mock.sv0) ∧
  compute_location_astropy Mock.py_float Mock.gcrs_to_itrs Mock.sv0
  = Ok (Some (1000%float, 2000%float, 3000%float)) ∧
  epoch_location Mock.py_float Mock.gcrs_to_itrs Mock.reverse
    "2025-063T12:00:00.000Z" db
  = (db, Raise (NameError "jsonify")) ∧
  (epoch_location Mock.py_float Mock.gcrs_to_itrs Mock.reverse
     "2025-064T12:00:00.000Z" db).2
  = Ok (error_response "Failed to Extract Latitude, Longitude, and Height.").
Proof.
  intros db.
  assert (epoch_data "2025-063T12:00:00.000Z" db = (db, Ok Mock.sv0)) as Hdata
    by reflexivity.
  assert (compute_location_astropy Mock.py_float Mock.gcrs_to_itrs Mock.sv0
          = Ok (Some (1000%float, 2000%float, 3000%float))) as Hloc
    by reflexivity.
  split_and!; [done | done | | reflexivity].
  destruct (location_success_path_raises Mock.py_float Mock.gcrs_to_itrs
              Mock.reverse "2025-063T12:00:00.000Z" db) as [Hraise _].
  apply (Hraise Mock.sv0 1000%float 2000%float 3000%float
           "No Nearest Geolocation Found. ISS might be hovering over an ocean."
           Hdata Hloc).
  reflexivity.
Defined.

(** ** Speed *)

Lemma binary_round_aux_nonneg prec emax m e l :
  sf_nonneg (binary_round_aux prec emax false m e l).
Proof.
  unfold binary_round_aux.
  destruct (shr_fexp prec emax m e l) as [mrs' e'].
  destruct (shr_fexp prec emax _ e' loc_Exact) as [mrs'' e''].
  destruct (shr_m mrs''); simpl; [done | | done].
  by destruct (e'' <=? emax - prec).
Qed.

Lemma SFadd_nonneg prec emax a b :
  sf_nonneg a → sf_nonneg b → sf_nonneg (SFadd prec emax a b).
Proof.
  destruct a as [sa | sa | | sa ma ea], b as [sb | sb | | sb mb eb];
    simpl; try done; try (destruct sa; try done); try (destruct sb; try done).
  intros _ _. unfold binary_normalize, cond_Zopp.
  change (Z.pos ?a + Z.pos ?b) with (Z.pos (a + b)).
  unfold binary_round. destruct (shl_align _ _ _).
  apply binary_round_aux_nonneg.
Qed.

Lemma SFltb_zero_nonneg s : sf_nonneg s → SFltb s (S754_zero false) = false.
Proof. destruct s as [sx | sx | | sx mx ex]; simpl; try done; by destruct sx. Qed.

(** [x < 0] is false exactly of the floats that are not below zero. *)
Lemma ltb_zero_nonneg (x : float) :
  PrimFloat.ltb x 0 = false ↔ sf_nonneg (Prim2SF x).
Proof.
  rewrite ltb_spec. change (Prim2SF 0) with (S754_zero false).
  destruct (Prim2SF x) as [s | s | | s m e]; simpl; try done;
    destruct s; simpl; split; done.
Qed.

(** [math.sqrt] never refuses a sum of three floats that are not below
    zero. *)
Lemma sum_not_negative (a b c : float) :
  PrimFloat.ltb a 0 = false →
  PrimFloat.ltb b 0 = false →
  PrimFloat.ltb c 0 = false →
  PrimFloat.ltb (a + b + c)%float 0 = false.
Proof.
  rewrite !ltb_zero_nonneg, !add_spec. intros Ha Hb Hc.
  by repeat apply SFadd_nonneg.
Qed.

Lemma is_nan_spec (x : float) :
  PrimFloat.is_nan x = true ↔ Prim2SF x = S754_nan.
Proof.
  unfold PrimFloat.is_nan. rewrite FloatAxioms.eqb_spec.
  destruct (Prim2SF x) as [s | s | | s m e]; simpl.
  - done.
  - by destruct s.
  - done.
  - unfold SFeqb, SFcompare. rewrite Z.compare_refl.
    change (PosDef.Pos.compare_cont Eq m m) with (Pos.compare m m).
    rewrite Pos.compare_refl. by destruct s.
Qed.

Lemma is_infinity_spec (x : float) :
  PrimFloat.is_infinity x = true ↔ ∃ s, Prim2SF x = S754_infinity s.
Proof.
  unfold PrimFloat.is_infinity. rewrite FloatAxioms.eqb_spec, abs_spec.
  change (Prim2SF infinity) with (S754_infinity false).
  destruct (Prim2SF x) as [s | s | | s m e]; simpl; split;
    try done; try (by intros [? ?]); eauto.
Qed.

Lemma eqb_zero_spec (x : float) :
  PrimFloat.eqb x 0 = true ↔ ∃ s, Prim2SF x = S754_zero s.
Proof.
  rewrite FloatAxioms.eqb_spec. change (Prim2SF 0) with (S754_zero false).
  destruct (Prim2SF x) as [s | s | | s m e]; simpl; split;
    try done; try (by intros [? ?]); eauto; by destruct s.
Qed.

(** The absolute value of an infinity is the infinity above. *)
Lemma abs_infinity (x : float) :
  PrimFloat.is_infinity x = true → PrimFloat.abs x = infinity.
Proof.
  intros [s Hs]%is_infinity_spec. apply Prim2SF_inj.
  by rewrite abs_spec, Hs.
Qed.

(** [iv] in [float_square] is the absolute value. *)
Lemma abs_by_sign (x : float) :
  PrimFloat.is_nan x = false →
  PrimFloat.eqb x 0 = false →
  (if PrimFloat.ltb x 0 then PrimFloat.opp x else x) = PrimFloat.abs x.
Proof.
  intros Hnan Hzero.
  assert (Prim2SF x ≠ S754_nan) as Hn.
  { intros H%is_nan_spec. congruence. }
  assert (∀ s, Prim2SF x ≠ S754_zero s) as Hz.
  { intros s H. assert (PrimFloat.eqb x 0 = true); [| congruence].
    apply eqb_zero_spec. eauto. }
  rewrite ltb_spec. change (Prim2SF 0) with (S754_zero false).
  destruct (Prim2SF x) as [s | s | | s m e] eqn:Hx; simpl.
  - by destruct (Hz s).
  - destruct s; simpl; apply Prim2SF_inj;
      by rewrite ?opp_spec, abs_spec, Hx.
  - done.
  - destruct s; simpl; apply Prim2SF_inj;
      by rewrite ?opp_spec, abs_spec, Hx.
Qed.

(** [float_square] through the absolute value. *)
Lemma float_square_abs libm_pow (x : float) :
  float_square libm_pow x
  = if PrimFloat.is_nan x then Ok x
    else if PrimFloat.is_infinity x then Ok (PrimFloat.abs x)
    else if PrimFloat.eqb x 0 then Ok 0%float
    else if PrimFloat.eqb (PrimFloat.abs x) 1 then Ok 1%float
    else checked_pow libm_pow (PrimFloat.abs x).
Proof.
  unfold float_square.
  destruct (PrimFloat.is_nan x) eqn:Hnan; [done |].
  destruct (PrimFloat.is_infinity x); [done |].
  destruct (PrimFloat.eqb x 0) eqn:Hzero; [done |].
  cbv zeta. by rewrite abs_by_sign.
Qed.

(** In range the C library's answer is the square, and it is not below
    zero. *)
Lemma checked_pow_in_range libm_pow (a : float) :
  pow_in_range libm_pow a = true →
  checked_pow libm_pow a = Ok (libm_pow a 2%float).1 ∧
  PrimFloat.ltb (libm_pow a 2%float).1 0 = false.
Proof.
  unfold pow_in_range, checked_pow.
  destruct (libm_pow a 2%float) as [ix errno]. simpl.
  destruct (PrimFloat.ltb ix 0); [done |].
  destruct (errno =? 0) eqn:He; simpl.
  - apply Z.eqb_eq in He as ->. simpl.
    by destruct (PrimFloat.is_infinity ix).
  - destruct (errno =? ERANGE); simpl; [| done].
    by destruct (PrimFloat.eqb ix 0).
Qed.

(** An infinite answer of the C library raises. *)
Lemma checked_pow_infinite libm_pow (a : float) :
  PrimFloat.is_infinity (libm_pow a 2%float).1 = true →
  ∀ r, checked_pow libm_pow a ≠ Ok r.
Proof.
  unfold checked_pow. destruct (libm_pow a 2%float) as [ix errno]. simpl.
  intros Hinf r. rewrite Hinf.
  destruct (errno =? 0) eqn:He; simpl; [done |].
  destruct (errno =? ERANGE) eqn:Hr; simpl.
  - destruct (PrimFloat.eqb ix 0) eqn:Hzero; simpl; [| by rewrite He, Hr].
    apply is_infinity_spec in Hinf as [s Hs].
    apply eqb_zero_spec in Hzero as [s' Hs']. congruence.
  - by rewrite He, Hr.
Qed.

Lemma float_square_in_range libm_pow (x : float) :
  square_in_range libm_pow x = true →
  float_square libm_pow x = Ok (square_value libm_pow x) ∧
  PrimFloat.ltb (square_value libm_pow x) 0 = false.
Proof.
  rewrite float_square_abs. unfold square_in_range, ordinary, square_value.
  destruct (PrimFloat.is_nan x) eqn:Hnan; simpl.
  { intros _. split; [done |]. apply ltb_zero_nonneg.
    by rewrite (proj1 (is_nan_spec x) Hnan). }
  destruct (PrimFloat.is_infinity x) eqn:Hinf; simpl.
  { intros _. by rewrite abs_infinity. }
  destruct (PrimFloat.eqb x 0); simpl; [done |].
  destruct (PrimFloat.eqb (PrimFloat.abs x) 1); simpl; [done |].
  apply checked_pow_in_range.
Qed.

(** With the three squares in range the speed is the root of their sum. *)
Lemma compute_speed_in_range libm_pow (x y z : float) :
  square_in_range libm_pow x = true →
  square_in_range libm_pow y = true →
  square_in_range libm_pow z = true →
  compute_speed libm_pow x y z
  = Ok (sqrt (square_value libm_pow x + square_value libm_pow y
              + square_value libm_pow z))%float.
Proof.
  intros [Hx Hsx]%float_square_in_range [Hy Hsy]%float_square_in_range
         [Hz Hsz]%float_square_in_range.
  unfold compute_speed. rewrite Hx, Hy, Hz. simpl.
  unfold math_sqrt. by rewrite sum_not_negative.
Qed.

(** C7, as amended. Speed is the Euclidean norm as the interpreter's float
    operations give it: on every platform, for all components whose squares
    are in range (the C library's [pow(|v|, 2.0)] returns a result that is
    not below zero and reports no overflow; it is not asked for a zero,
    [-1.0], [1.0], an infinity or a NaN), [compute_speed] returns the
    binary64 square root of the binary64 sum of the three squares as that
    [pow] returns them. In particular it returns [0.0] at [(0, 0, 0)] on
    every platform, and [3.0] at [(2, 2, 1)] and the float [sqrt 26] at
    [(3, 1, 4)] on every platform whose [pow] is exact at the squares of 2, 3
    and 4. *)
Theorem compute_speed_is_norm (libm_pow : float → float → float * Z) :
  (∀ x y z : float,
     square_in_range libm_pow x = true →
     square_in_range libm_pow y = true →
     square_in_range libm_pow z = true →
     compute_speed libm_pow x y z
     = Ok (sqrt (square_value libm_pow x + square_value libm_pow y
                 + square_value libm_pow z))%float) ∧
  compute_speed libm_pow 0 0 0 = Ok 0%float ∧
  (libm_pow 2%float 2%float = (4%float, 0) →
   compute_speed libm_pow 2 2 1 = Ok 3%float) ∧
  (libm_pow 3%float 2%float = (9%float, 0) →
   libm_pow 4%float 2%float = (16%float, 0) →
   compute_speed libm_pow 3 1 4 = Ok (sqrt 26)%float).
Proof.
  split_and!.
  - apply compute_speed_in_range.
  - reflexivity.
  - intros H2. unfold compute_speed, float_square, checked_pow.
    change (if PrimFloat.ltb 2 0 then (- 2)%float else 2%float) with 2%float.
    cbn. by rewrite H2.
  - intros H3 H4. unfold compute_speed, float_square, checked_pow.
    change (if PrimFloat.ltb 3 0 then (- 3)%float else 3%float) with 3%float.
    change (if PrimFloat.ltb 4 0 then (- 4)%float else 4%float) with 4%float.
    cbn. by rewrite H3, H4.
Qed.

Lemma compute_speed_is_norm_witness :
  (square_in_range Mock.libm_pow 3 = true ∧
   square_in_range Mock.libm_pow 1 = true ∧
   square_in_range Mock.libm_pow 4 = true ∧
   compute_speed Mock.libm_pow 3 1 4
   = Ok (sqrt (square_value Mock.libm_pow 3 + square_value Mock.libm_pow 1
               + square_value Mock.libm_pow 4))%float ∧
   (sqrt (square_value Mock.libm_pow 3 + square_value Mock.libm_pow 1
          + square_value Mock.libm_pow 4)
    = 0x1.465655f122ff6p+2)%float) ∧
  (let x := 0x1.fdb22d0e56042p+2%float in
   let y := 0x1.66e978d4fdf3bp+0%float in
   let z := (- 0x1.88f5c28f5c28fp+0)%float in
   square_value Mock.glibc_pow x = 0x1.fb670196d8f50p+5%float ∧
   compute_speed Mock.glibc_pow x y z
   = Ok (sqrt (square_value Mock.glibc_pow x + square_value Mock.glibc_pow y
               + square_value Mock.glibc_pow z))%float ∧
   (sqrt (square_value Mock.glibc_pow x + square_value Mock.glibc_pow y
          + square_value Mock.glibc_pow z)
    = 0x1.07633d41fc4d5p+3)%float).
Proof.
  split.
  - split; [reflexivity |]. split; [reflexivity |]. split; [reflexivity |].
    split; [| reflexivity].
    apply (proj1 (compute_speed_is_norm Mock.libm_pow) 3%float 1%float 4%float);
      reflexivity.
  - intros x y z. split; [reflexivity |]. split; [| reflexivity].
    apply (proj1 (compute_speed_is_norm Mock.glibc_pow) x y z); reflexivity.
Defined.

(** C7 as first stated fails on finite components whose square leaves the
    binary64 range: at [2^600] the C library reports the overflow, the power
    raises [OverflowError] and [compute_speed] returns no speed; so it is
    with every C library that returns an infinity there. Nor is the value
    the norm with each operation rounded to binary64: where [pow] returns a
    neighbour of the rounded square, as at 7.964, the speed at
    [(7.964, 1.402, -1.535)] ends one unit in the last place below the root
    of the sum of the rounded products. *)
Lemma compute_speed_overflow_counterexample :
  (PrimFloat.is_infinity 0x1p600 = false ∧
   PrimFloat.is_nan 0x1p600 = false ∧
   Mock.libm_pow 0x1p600%float 2%float = (infinity, ERANGE) ∧
   compute_speed Mock.libm_pow 0x1p600 0 0 = Raise OverflowError ∧
   (∀ libm_pow : float → float → float * Z,
      PrimFloat.is_infinity (libm_pow 0x1p600%float 2%float).1 = true →
      ∀ r, compute_speed libm_pow 0x1p600 0 0 ≠ Ok r)) ∧
  (let x := 0x1.fdb22d0e56042p+2%float in
   let y := 0x1.66e978d4fdf3bp+0%float in
   let z := (- 0x1.88f5c28f5c28fp+0)%float in
   compute_speed Mock.glibc_pow x y z = Ok 0x1.07633d41fc4d5p+3%float ∧
   (sqrt (x * x + y * y + z * z) = 0x1.07633d41fc4d6p+3)%float).
Proof.
  split.
  - split_and!; try reflexivity.
    intros libm_pow Hinf r. unfold compute_speed.
    change (float_square libm_pow 0x1p600)
      with (checked_pow libm_pow 0x1p600).
    destruct (checked_pow libm_pow 0x1p600) as [xx | e] eqn:Hpow; [| done].
    by destruct (checked_pow_infinite libm_pow _ Hinf xx).
  - intros x y z. split; reflexivity.
Qed.

(** * Further properties of the handlers *)

(** ** One turn of the ingestion loop *)

(** The three ways a turn of the loop can end well. *)
Lemma store_state_vector_ok sv db db1 ev :
  store_state_vector sv db = (db1, Ok ev) →
  ∃ k, has_epoch sv k ∧
    ((ev = AddingNewEpoch k ∧ db !! k = None ∧ k ≠ Rd.iss_keys ∧
      (∀ w, db !! Rd.iss_keys ≠ Some (RString w)) ∧
      db1 = <[Rd.iss_keys := RList (Rd.index db ++ [k])%list]>
              (<[k := RString sv]> db)) ∨
     (∃ stored, ev = UpdatingExisting k ∧ db !! k = Some (RString stored) ∧
                PyVal.eqb stored sv = false ∧ db1 = <[k := RString sv]> db) ∨
     (∃ stored, ev = AlreadyExists ∧ db !! k = Some (RString stored) ∧
                PyVal.eqb stored sv = true ∧ db1 = db)).
Proof.
  unfold store_state_vector, bind, lift, ret, has_epoch.
  destruct (PyVal.getitem sv "EPOCH") as [epoch_v | e]; [| done].
  destruct epoch_v as [| k | |]; simpl; try done.
  unfold Rd.exists_. intros H. exists k. split; [done |].
  destruct (db !! k) as [[stored | l] |] eqn:Hlook.
  - rewrite bool_decide_eq_true_2 in H by eauto. simpl in H.
    unfold Rd.get in H. rewrite Hlook in H. simpl in H.
    destruct (PyVal.eqb stored sv) eqn:Heq; simpl in H; inversion H; subst.
    + right. right. by exists stored.
    + right. left. by exists stored.
  - rewrite bool_decide_eq_true_2 in H by eauto. simpl in H.
    unfold Rd.get in H. by rewrite Hlook in H.
  - rewrite bool_decide_eq_false_2 in H by (intros [? ?]; done). simpl in H.
    unfold Rd.rpush in H.
    destruct (decide (k = Rd.iss_keys)) as [-> | Hne].
    + by rewrite lookup_insert_eq in H.
    + rewrite lookup_insert_ne in H by done. left. unfold Rd.index.
      destruct (db !! Rd.iss_keys) as [[w | l] |] eqn:Hidx;
        simpl in H; inversion H; subst; split_and!; done.
Qed.

Lemma epoch_data_stored db k v :
  db !! k = Some (RString v) → epoch_data k db = (db, Ok v).
Proof.
  intros Hk. unfold epoch_data, bind, Rd.exists_, Rd.get, lift.
  rewrite bool_decide_eq_true_2 by eauto. simpl. by rewrite Hk.
Qed.

Lemma epoch_data_missing db k :
  db !! k = None → epoch_data k db = (db, Ok (PyVal.error "No matching EPOCH")).
Proof.
  intros Hk. unfold epoch_data, bind, Rd.exists_.
  by rewrite bool_decide_eq_false_2 by (rewrite Hk; intros [? ?]; done).
Qed.

(** After a turn that ended well the sample is under its key. *)
Lemma store_state_vector_lookup sv db db1 ev k :
  store_state_vector sv db = (db1, Ok ev) →
  has_epoch sv k →
  ∃ v, db1 !! k = Some (RString v) ∧
       (ev = AlreadyExists → PyVal.eqb v sv = true) ∧
       (ev ≠ AlreadyExists → v = sv).
Proof.
  intros Hstep Hk.
  destruct (store_state_vector_ok _ _ _ _ Hstep)
    as (k' & Hk' & [(-> & Hfresh & Hne & Hslot & ->)
                   | [(stored & -> & Hlook & Heq & ->)
                     | (stored & -> & Hlook & Heq & ->)]]);
    unfold has_epoch in *; assert (k' = k) as -> by congruence.
  - exists sv. rewrite lookup_insert_ne by done. rewrite lookup_insert_eq.
    by split_and!.
  - exists sv. rewrite lookup_insert_eq. by split_and!.
  - exists stored. by split_and!.
Qed.

(** X1. Upsert, then look up: after a turn of the ingestion loop that ended
    well on a sample [sv] with epoch [k], [epoch_data k] returns a stored
    sample and leaves the database alone. The sample returned is [sv]
    itself when the turn wrote (new epoch, or changed value), and a value
    Python's [==] finds equal to [sv] when the turn found nothing to do. *)
Theorem upsert_then_lookup (sv : pyval) (db db1 : redis) (ev : event) (k : string) :
  store_state_vector sv db = (db1, Ok ev) →
  has_epoch sv k →
  ∃ v, epoch_data k db1 = (db1, Ok v) ∧
       (ev = AlreadyExists → PyVal.eqb v sv = true) ∧
       (ev ≠ AlreadyExists → v = sv).
Proof.
  intros Hstep Hk.
  destruct (store_state_vector_lookup _ _ _ _ _ Hstep Hk) as (v & Hv & H1 & H2).
  exists v. split_and!; [by apply epoch_data_stored | done | done].
Qed.

Lemma upsert_then_lookup_witness :
  let db1 := Mock.db_of [Mock.sv0] in
  ∃ v, epoch_data "2025-063T12:00:00.000Z" db1 = (db1, Ok v) ∧
       (AddingNewEpoch "2025-063T12:00:00.000Z" = AlreadyExists →
        PyVal.eqb v Mock.sv0 = true) ∧
       (AddingNewEpoch "2025-063T12:00:00.000Z" ≠ AlreadyExists → v = Mock.sv0).
Proof.
  intros db1.
  apply (upsert_then_lookup Mock.sv0 ∅ db1
           (AddingNewEpoch "2025-063T12:00:00.000Z")).
  - vm_compute. reflexivity.
  - reflexivity.
Defined.

(** ** What a request leaves in the database *)

(** A [GET /epochs] request leaves what its ingestion loop leaves. *)
Lemma serve_epochs_db r db :
  (serve_epochs r db).1 = (store_state_vectors (feed_samples r) db).1.
Proof.
  destruct r as [f l o]. unfold serve_epochs, feed_samples. simpl.
  destruct f as [| | | state_vectors]; try done.
  destruct (PyVal.truthy state_vectors) eqn:Htruthy.
  - destruct (PyVal.iter state_vectors) as [svs | e] eqn:Hiter.
    + by apply read_iss_data_db.
    + unfold read_iss_data. rewrite Htruthy. simpl.
      unfold bind, lift. by rewrite Hiter.
  - unfold read_iss_data. by rewrite Htruthy.
Qed.

(** A turn of the loop, however it ends, only appends to the index and
    removes no key. *)
Lemma store_state_vector_grows sv db :
  Rd.index db `prefix_of` Rd.index (store_state_vector sv db).1 ∧
  ∀ k, is_Some (db !! k) → is_Some ((store_state_vector sv db).1 !! k).
Proof.
  unfold store_state_vector, bind, lift, ret.
  destruct (PyVal.getitem sv "EPOCH") as [epoch_v | e]; [| done].
  destruct epoch_v as [| epoch | |]; simpl; try done.
  unfold Rd.exists_.
  assert (∀ (m : redis) j x k, is_Some (m !! k) → is_Some (<[j := x]> m !! k))
    as Hkeep.
  { intros m j x k Hk. destruct (decide (j = k)) as [-> | Hne].
    - rewrite lookup_insert_eq. eauto.
    - by rewrite lookup_insert_ne. }
  destruct (db !! epoch) as [[stored | l] |] eqn:Hlook.
  - rewrite bool_decide_eq_true_2 by eauto. simpl.
    unfold Rd.get. rewrite Hlook. simpl.
    destruct (PyVal.eqb stored sv); simpl; [done |].
    rewrite index_set_sample by eauto. split; [done | by apply Hkeep].
  - rewrite bool_decide_eq_true_2 by eauto. simpl.
    unfold Rd.get. by rewrite Hlook.
  - rewrite bool_decide_eq_false_2 by (intros [? ?]; done). simpl.
    unfold Rd.rpush.
    destruct (decide (epoch = Rd.iss_keys)) as [-> | Hne].
    + rewrite lookup_insert_eq. simpl. split; [| by apply Hkeep].
      unfold Rd.index at 1. rewrite Hlook. apply prefix_nil.
    + rewrite lookup_insert_ne by done.
      destruct (db !! Rd.iss_keys) as [[w | l] |] eqn:Hidx; simpl.
      * rewrite index_set_sample by auto. split; [done | by apply Hkeep].
      * split; [| intros k Hk; by do 2 apply Hkeep].
        unfold Rd.index. rewrite Hidx, lookup_insert_eq. by apply prefix_app_r.
      * split; [| intros k Hk; by do 2 apply Hkeep].
        unfold Rd.index at 1. rewrite Hidx. apply prefix_nil.
Qed.

Lemma store_state_vectors_grows svs db :
  Rd.index db `prefix_of` Rd.index (store_state_vectors svs db).1 ∧
  ∀ k, is_Some (db !! k) → is_Some ((store_state_vectors svs db).1 !! k).
Proof.
  revert db. induction svs as [| sv svs IH]; intros db; simpl; [done |].
  unfold bind.
  pose proof (store_state_vector_grows sv db) as [Hpre Hkeys].
  destruct (store_state_vector sv db) as [db1 [ev | e]]; simpl in *; [| done].
  pose proof (IH db1) as [Hpre' Hkeys'].
  destruct (store_state_vectors svs db1) as [db2 [evs | e]]; simpl in *;
    (split; [by etrans | auto]).
Qed.

(** X2. The store only grows: whatever a history of [GET /epochs] requests
    downloads, and however its loops end, the index it started from is a
    prefix of the index it leaves (keys are appended, never removed or
    reordered) and every key of the database is still a key afterwards. *)
Theorem store_only_grows (history : list epochs_request) (db : redis) :
  Rd.index db `prefix_of` Rd.index (after_requests history db) ∧
  ∀ k, is_Some (db !! k) → is_Some (after_requests history db !! k).
Proof.
  revert db. induction history as [| r history IH]; intros db; [done |].
  unfold after_requests. simpl. fold (after_requests history (serve_epochs r db).1).
  rewrite serve_epochs_db.
  pose proof (store_state_vectors_grows (feed_samples r) db) as [Hpre Hkeys].
  pose proof (IH (store_state_vectors (feed_samples r) db).1) as [Hpre' Hkeys'].
  split; [by etrans | auto].
Qed.

(** ** Feeds the loop cannot finish *)

(** The loop over a feed in two parts is the loop over the first part
    followed, if that ended well, by the loop over the second. *)
Lemma store_state_vectors_app pre post db :
  store_state_vectors (pre ++ post) db =
  match store_state_vectors pre db with
  | (db1, Ok evs) =>
      match store_state_vectors post db1 with
      | (db2, Ok evs') => (db2, Ok (evs ++ evs')%list)
      | (db2, Raise e) => (db2, Raise e)
      end
  | (db1, Raise e) => (db1, Raise e)
  end.
Proof.
  revert db. induction pre as [| sv pre IH]; intros db; simpl.
  - unfold ret. by destruct (store_state_vectors post db) as [db2 [evs' | e]].
  - unfold bind.
    destruct (store_state_vector sv db) as [db0 [ev | e]]; [| done].
    rewrite IH.
    destruct (store_state_vectors pre db0) as [db1 [evs | e]]; [| done].
    unfold ret.
    by destruct (store_state_vectors post db1) as [db2 [evs' | e]].
Qed.

(** X3. No rollback: when the samples before a sample without a usable
    ['EPOCH'] are ingested well, [read_iss_data] ends in the exception of
    that subscript ([KeyError] for a dict without the key, [TypeError] for a
    sample that is no dict), with the database as those first samples left
    it. The samples after it play no part, and no parameter is validated. *)
Theorem ingestion_stops_at_bad_sample
    (pre post : list pyval) (bad : pyval) (limit offset : option string)
    (db db1 : redis) (evs : list event) (e : exn) :
  store_state_vectors pre db = (db1, Ok evs) →
  PyVal.getitem bad "EPOCH" = Raise e →
  read_iss_data (Parsed (VList (pre ++ bad :: post))) limit offset db
  = (db1, Raise e).
Proof.
  intros Hpre Hbad. unfold read_iss_data.
  assert (PyVal.truthy (VList (pre ++ bad :: post)) = true) as ->.
  { simpl. rewrite length_app. simpl.
    destruct (length pre + S (length post))%nat eqn:E; [lia | done]. }
  simpl. unfold bind at 1. unfold lift at 1. simpl.
  unfold bind at 1. rewrite store_state_vectors_app, Hpre. simpl.
  unfold bind at 1. unfold store_state_vector, bind, lift.
  by rewrite Hbad.
Qed.

Lemma ingestion_stops_at_bad_sample_witness :
  read_iss_data
    (Parsed (VList ([Mock.sv0] ++ VDict [("X", VStr "1.0")] :: [Mock.sv1])))
    (Some "abc") None ∅
  = (Mock.db_of [Mock.sv0], Raise KeyError).
Proof.
  apply (ingestion_stops_at_bad_sample [Mock.sv0] [Mock.sv1]
           (VDict [("X", VStr "1.0")]) (Some "abc") None ∅
           (Mock.db_of [Mock.sv0])
           [AddingNewEpoch "2025-063T12:00:00.000Z"] KeyError).
  - vm_compute. reflexivity.
  - reflexivity.
Defined.

(** X4. A feed that is not a list: when ['stateVector'] holds a single
    element, [xmltodict] yields a dict (or a string) instead of a list. The
    loop then iterates over its keys (or characters), the first subscript
    [sv['EPOCH']] raises [TypeError], and nothing is stored. *)
Theorem single_element_feed_raises
    (state_vectors : pyval) (limit offset : option string) (db : redis) :
  PyVal.truthy state_vectors = true →
  (∀ l, state_vectors ≠ VList l) →
  read_iss_data (Parsed state_vectors) limit offset db = (db, Raise TypeError).
Proof.
  intros Htruthy Hnolist. unfold read_iss_data. rewrite Htruthy. simpl.
  destruct state_vectors as [| s | d | l]; simpl in *; try done.
  - destruct s as [| c s]; [done |]. done.
  - destruct d as [| [k v] d]; [done |]. done.
  - by destruct (Hnolist l).
Qed.

Lemma single_element_feed_raises_witness :
  read_iss_data (Parsed Mock.sv0) None None ∅ = (∅, Raise TypeError).
Proof.
  apply (single_element_feed_raises Mock.sv0 None None ∅).
  - reflexivity.
  - intros l. discriminate.
Defined.

(** ** Feeds of new epochs, and feeds seen before *)

(** A feed of new, pairwise distinct epochs is ingested to its end, one
    insertion per sample. *)
Lemma store_new_epochs (svs : list pyval) (ks : list string) (db : redis) :
  Forall2 has_epoch svs ks →
  NoDup ks →
  (∀ k, k ∈ ks → db !! k = None ∧ k ≠ Rd.iss_keys) →
  (∀ w, db !! Rd.iss_keys ≠ Some (RString w)) →
  ∃ db1,
    store_state_vectors svs db = (db1, Ok (AddingNewEpoch <$> ks)) ∧
    Rd.index db1 = (Rd.index db ++ ks)%list ∧
    Forall2 (λ sv k, db1 !! k = Some (RString sv)) svs ks ∧
    (∀ k', k' ∉ ks → k' ≠ Rd.iss_keys → db1 !! k' = db !! k').
Proof.
  intros Hepochs. revert db.
  induction Hepochs as [| sv k svs ks Hk Hrest IH]; intros db Hnd Hfresh Hslot.
  - exists db. simpl. unfold ret. rewrite app_nil_r. by split_and!.
  - apply NoDup_cons in Hnd as [Hnotin Hnd].
    destruct (Hfresh k) as [Hnone Hne]; [by left |].
    pose proof (store_new_epoch db sv k Hk Hne Hnone Hslot) as Hstep.
    set (db' := <[Rd.iss_keys := RList (Rd.index db ++ [k])%list]>
                  (<[k := RString sv]> db)) in *.
    assert (Rd.index db' = (Rd.index db ++ [k])%list) as Hidx'.
    { unfold db', Rd.index at 1. by rewrite lookup_insert_eq. }
    destruct (IH db' Hnd) as (db1 & Hloop & Hidx & Hstored & Hother).
    { intros k2 Hin. destruct (Hfresh k2) as [Hnone2 Hne2]; [by right |].
      split; [| done]. unfold db'.
      rewrite lookup_insert_ne by done. rewrite lookup_insert_ne; [done |].
      intros ->. done. }
    { intros w. unfold db'. by rewrite lookup_insert_eq. }
    exists db1. split_and!.
    + simpl. unfold bind. rewrite Hstep, Hloop. done.
    + rewrite Hidx, Hidx'. by rewrite <- app_assoc.
    + constructor; [| done]. rewrite Hother by done. unfold db'.
      rewrite lookup_insert_ne by done. apply lookup_insert_eq.
    + intros k' Hnotin' Hne'. apply not_elem_of_cons in Hnotin' as [Hkk' Hnotin'].
      rewrite Hother by done. unfold db'.
      rewrite lookup_insert_ne by done. by rewrite lookup_insert_ne.
Qed.

(** X5. Feed order is index order: after a [GET /epochs] request whose feed
    is a list of samples with pairwise distinct epochs, all new to the
    database and none the index name, the index is the old index followed
    by the epochs of the feed in feed order, every sample is stored under
    its epoch, and no other sample key is touched. The query parameters
    have no part in it. *)
Theorem new_epochs_keep_feed_order
    (svs : list pyval) (ks : list string) (limit offset : option string)
    (db : redis) :
  Forall2 has_epoch svs ks →
  NoDup ks →
  (∀ k, k ∈ ks → db !! k = None ∧ k ≠ Rd.iss_keys) →
  (∀ w, db !! Rd.iss_keys ≠ Some (RString w)) →
  let db1 := (read_iss_data (Parsed (VList svs)) limit offset db).1 in
  Rd.index db1 = (Rd.index db ++ ks)%list ∧
  Forall2 (λ sv k, db1 !! k = Some (RString sv)) svs ks ∧
  (∀ k', k' ∉ ks → k' ≠ Rd.iss_keys → db1 !! k' = db !! k').
Proof.
  intros Hepochs Hnd Hfresh Hslot db1. subst db1.
  destruct svs as [| sv svs].
  - apply Forall2_nil_inv_l in Hepochs as ->. simpl.
    rewrite app_nil_r. split_and!; [done | constructor | done].
  - rewrite (read_iss_data_db _ _ _ _ (sv :: svs)) by done.
    destruct (store_new_epochs (sv :: svs) ks db Hepochs Hnd Hfresh Hslot)
      as (db1 & -> & Hidx & Hstored & Hother).
    done.
Qed.

Lemma new_epochs_keep_feed_order_witness :
  let db1 :=
    (read_iss_data (Parsed (VList [Mock.sv5; Mock.sv0])) (Some "abc") None ∅).1 in
  Rd.index db1
  = (Rd.index ∅ ++ ["2025-063T12:05:00.000Z"; "2025-063T12:00:00.000Z"])%list ∧
  Forall2 (λ sv k, db1 !! k = Some (RString sv)) [Mock.sv5; Mock.sv0]
    ["2025-063T12:05:00.000Z"; "2025-063T12:00:00.000Z"] ∧
  (∀ k', k' ∉ ["2025-063T12:05:00.000Z"; "2025-063T12:00:00.000Z"] →
         k' ≠ Rd.iss_keys → db1 !! k' = (∅ : redis) !! k').
Proof.
  apply (new_epochs_keep_feed_order [Mock.sv5; Mock.sv0]
           ["2025-063T12:05:00.000Z"; "2025-063T12:00:00.000Z"]
           (Some "abc") None ∅).
  - repeat constructor.
  - apply NoDup_cons. split.
    + intros Hin%list_elem_of_singleton. discriminate.
    + apply NoDup_singleton.
  - intros k Hin. split; [apply lookup_empty |].
    apply elem_of_cons in Hin as [-> | Hin%list_elem_of_singleton];
      [| subst k]; discriminate.
  - intros w. rewrite lookup_empty. discriminate.
Defined.

Lemma holds_after_step sv db db1 ev k :
  store_state_vector sv db = (db1, Ok ev) →
  PyVal.wf sv = true →
  has_epoch sv k →
  holds db1 sv k.
Proof.
  intros Hstep Hwf Hk.
  destruct (store_state_vector_lookup _ _ _ _ _ Hstep Hk) as (v & Hv & Hsame & Hnew).
  exists v. split; [done |].
  destruct ev as [epoch | epoch |]; [| | by apply Hsame];
    rewrite Hnew by done; by apply eqb_refl.
Qed.

(** A turn on another epoch leaves a stored sample as it is. *)
Lemma holds_other_step sv' db db1 ev k' sv k :
  store_state_vector sv' db = (db1, Ok ev) →
  has_epoch sv' k' →
  k' ≠ k →
  holds db sv k →
  holds db1 sv k.
Proof.
  intros Hstep Hk' Hne (v & Hv & Heq).
  destruct (store_state_vector_ok _ _ _ _ Hstep)
    as (k2 & Hk2 & [(-> & Hfresh & Hneidx & Hslot & ->)
                   | [(stored & -> & Hlook & Hdiff & ->)
                     | (stored & -> & Hlook & Hsame & ->)]]);
    unfold has_epoch in *; assert (k2 = k') as -> by congruence;
    exists v; (split; [| done]).
  - rewrite lookup_insert_ne; [by rewrite lookup_insert_ne |].
    intros <-. by destruct (Hslot v).
  - by rewrite lookup_insert_ne.
  - done.
Qed.

Lemma holds_other_loop svs ks db db1 evs sv k :
  store_state_vectors svs db = (db1, Ok evs) →
  Forall2 has_epoch svs ks →
  k ∉ ks →
  holds db sv k →
  holds db1 sv k.
Proof.
  intros Hloop Hepochs. revert db evs Hloop.
  induction Hepochs as [| sv' k' svs ks Hk' Hrest IH];
    intros db evs Hloop Hnotin Hholds.
  - simpl in Hloop. unfold ret in Hloop. by inversion Hloop; subst.
  - apply not_elem_of_cons in Hnotin as [Hne Hnotin].
    simpl in Hloop. unfold bind in Hloop.
    destruct (store_state_vector sv' db) as [db0 [ev |]] eqn:Hstep; [| done].
    destruct (store_state_vectors svs db0) as [db2 [evs' |]] eqn:Hloop';
      [| done].
    unfold ret in Hloop. inversion Hloop; subst.
    eapply IH; [done | done |].
    eapply holds_other_step; eauto.
Qed.

Lemma all_hold_after_loop svs ks db db1 evs :
  store_state_vectors svs db = (db1, Ok evs) →
  Forall2 has_epoch svs ks →
  NoDup ks →
  Forall (λ sv, PyVal.wf sv = true) svs →
  Forall2 (holds db1) svs ks.
Proof.
  intros Hloop Hepochs. revert db evs Hloop.
  induction Hepochs as [| sv k svs ks Hk Hrest IH];
    intros db evs Hloop Hnd Hwf; [constructor |].
  apply NoDup_cons in Hnd as [Hnotin Hnd].
  apply Forall_cons in Hwf as [Hwf Hwfs].
  simpl in Hloop. unfold bind in Hloop.
  destruct (store_state_vector sv db) as [db0 [ev |]] eqn:Hstep; [| done].
  destruct (store_state_vectors svs db0) as [db2 [evs' |]] eqn:Hloop'; [| done].
  unfold ret in Hloop. inversion Hloop; subst.
  constructor; [| by eapply IH].
  eapply holds_other_loop; [done | done | done |].
  by eapply holds_after_step.
Qed.

(** A feed whose samples the database already holds is read without a
    write. *)
Lemma store_held_samples svs ks db :
  Forall2 has_epoch svs ks →
  Forall2 (holds db) svs ks →
  store_state_vectors svs db
  = (db, Ok (replicate (length svs) AlreadyExists)).
Proof.
  intros Hepochs. induction Hepochs as [| sv k svs ks Hk Hrest IH];
    intros Hholds; [done |].
  apply Forall2_cons in Hholds as [(v & Hv & Heq) Hholds].
  simpl. unfold bind.
  assert (store_state_vector sv db = (db, Ok AlreadyExists)) as ->.
  { unfold store_state_vector, bind, lift, ret. rewrite Hk. simpl.
    unfold Rd.exists_. rewrite bool_decide_eq_true_2 by eauto. simpl.
    unfold Rd.get. rewrite Hv. simpl. by rewrite Heq. }
  by rewrite IH.
Qed.

(** X6. Downloading the same feed again writes nothing: when a feed of
    well-formed samples with pairwise distinct epochs has been ingested to
    its end, ingesting it once more reports every sample as already there
    and leaves the database exactly as it is. *)
Theorem second_ingestion_writes_nothing
    (svs : list pyval) (ks : list string) (db db1 : redis) (evs : list event) :
  store_state_vectors svs db = (db1, Ok evs) →
  Forall2 has_epoch svs ks →
  NoDup ks →
  Forall (λ sv, PyVal.wf sv = true) svs →
  store_state_vectors svs db1
  = (db1, Ok (replicate (length svs) AlreadyExists)).
Proof.
  intros Hloop Hepochs Hnd Hwf.
  apply (store_held_samples svs ks); [done |].
  by eapply all_hold_after_loop.
Qed.

Lemma second_ingestion_writes_nothing_witness :
  let db1 := Mock.db_of Mock.mock_iss_data in
  store_state_vectors Mock.mock_iss_data db1
  = (db1, Ok (replicate (length Mock.mock_iss_data) AlreadyExists)).
Proof.
  intros db1.
  apply (second_ingestion_writes_nothing Mock.mock_iss_data
           ["2025-063T12:00:00.000Z"; "2025-063T12:01:00.000Z"] ∅ db1
           [AddingNewEpoch "2025-063T12:00:00.000Z";
            AddingNewEpoch "2025-063T12:01:00.000Z"]).
  - vm_compute. reflexivity.
  - repeat constructor.
  - apply NoDup_cons. split.
    + intros Hin%list_elem_of_singleton. discriminate.
    + apply NoDup_singleton.
  - repeat constructor.
Defined.

(** ** The store behind a validation error *)

(** A turn of the loop that ended well on another epoch leaves the sample
    under [k] as it is. *)
Lemma lookup_other_step sv' db db1 ev k' k v :
  store_state_vector sv' db = (db1, Ok ev) →
  has_epoch sv' k' →
  k' ≠ k →
  db !! k = Some (RString v) →
  db1 !! k = Some (RString v).
Proof.
  intros Hstep Hk' Hne Hv.
  destruct (store_state_vector_ok _ _ _ _ Hstep)
    as (k2 & Hk2 & [(-> & Hfresh & Hneidx & Hslot & ->)
                   | [(stored & -> & Hlook & Hdiff & ->)
                     | (stored & -> & Hlook & Hsame & ->)]]);
    unfold has_epoch in *; assert (k2 = k') as -> by congruence.
  - rewrite lookup_insert_ne; [by rewrite lookup_insert_ne |].
    intros <-. by destruct (Hslot v).
  - by rewrite lookup_insert_ne.
  - done.
Qed.

Lemma lookup_other_loop svs db db1 evs k v :
  store_state_vectors svs db = (db1, Ok evs) →
  (∀ sv, sv ∈ svs → ¬ has_epoch sv k) →
  db !! k = Some (RString v) →
  db1 !! k = Some (RString v).
Proof.
  revert db evs. induction svs as [| sv' svs IH]; intros db evs Hloop Hother Hv.
  - simpl in Hloop. unfold ret in Hloop. by inversion Hloop; subst.
  - simpl in Hloop. unfold bind in Hloop.
    destruct (store_state_vector sv' db) as [db0 [ev |]] eqn:Hstep; [| done].
    destruct (store_state_vectors svs db0) as [db2 [evs' |]] eqn:Hloop';
      [| done].
    unfold ret in Hloop. inversion Hloop; subst.
    destruct (store_state_vector_ok _ _ _ _ Hstep) as (k' & Hk' & _).
    eapply IH; [done | |].
    + intros sv Hin. apply Hother. by right.
    + eapply lookup_other_step; [done | done | | done].
      intros ->. apply (Hother sv'); [by left | done].
Qed.

(** After a loop that ran to its end, the last sample of the feed with a
    given epoch is the one stored under it, unless the turn found an equal
    sample already there. *)
Lemma loop_last_write pre sv post db db1 evs k :
  store_state_vectors (pre ++ sv :: post) db = (db1, Ok evs) →
  has_epoch sv k →
  (∀ sv', sv' ∈ post → ¬ has_epoch sv' k) →
  ∃ v, db1 !! k = Some (RString v) ∧ (v = sv ∨ PyVal.eqb v sv = true).
Proof.
  intros Hloop Hk Hlast. rewrite store_state_vectors_app in Hloop.
  destruct (store_state_vectors pre db) as [db0 [evs0 |]]; [| done].
  simpl in Hloop. unfold bind in Hloop.
  destruct (store_state_vector sv db0) as [db2 [ev |]] eqn:Hstep; [| done].
  destruct (store_state_vectors post db2) as [db3 [evs3 |]] eqn:Hpost;
    [| done].
  unfold ret in Hloop. inversion Hloop; subst.
  destruct (store_state_vector_lookup _ _ _ _ _ Hstep Hk) as (v & Hv & Hsame & Hnew).
  exists v. split.
  - by eapply lookup_other_loop.
  - destruct ev as [epoch | epoch |]; [left | left | right]; auto.
Qed.

(** Every sample of a feed the loop went through carries an epoch. *)
Lemma loop_epochs svs db db1 evs :
  store_state_vectors svs db = (db1, Ok evs) →
  ∀ sv, sv ∈ svs → ∃ k, has_epoch sv k.
Proof.
  revert db evs. induction svs as [| sv' svs IH]; intros db evs Hloop sv Hin.
  - by apply elem_of_nil in Hin.
  - simpl in Hloop. unfold bind in Hloop.
    destruct (store_state_vector sv' db) as [db0 [ev |]] eqn:Hstep; [| done].
    destruct (store_state_vectors svs db0) as [db2 [evs' |]] eqn:Hloop';
      [| done].
    unfold ret in Hloop. inversion Hloop; subst.
    apply elem_of_cons in Hin as [-> | Hin].
    + destruct (store_state_vector_ok _ _ _ _ Hstep) as (k & Hk & _). eauto.
    + by eapply IH.
Qed.

(** An epoch of the feed that held no sample before the loop is in the index
    after it. *)
Lemma new_epoch_listed svs db db1 evs k :
  store_state_vectors svs db = (db1, Ok evs) →
  (∃ sv, sv ∈ svs ∧ has_epoch sv k) →
  (∀ w, db !! k ≠ Some (RString w)) →
  k ∈ Rd.index db1.
Proof.
  revert db evs. induction svs as [| sv' svs IH];
    intros db evs Hloop (sv & Hin & Hk) Hnew.
  { by apply elem_of_nil in Hin. }
  simpl in Hloop. unfold bind in Hloop.
  destruct (store_state_vector sv' db) as [db0 [ev |]] eqn:Hstep; [| done].
  pose proof (store_state_vectors_grows svs db0) as [Hpre _].
  destruct (store_state_vectors svs db0) as [db2 [evs' |]] eqn:Hloop';
    [| done].
  unfold ret in Hloop. inversion Hloop; subst. simpl in Hpre.
  destruct (store_state_vector_ok _ _ _ _ Hstep)
    as (k' & Hk' & [(-> & Hfresh & Hneidx & Hslot & ->)
                   | [(stored & -> & Hlook & Hdiff & ->)
                     | (stored & -> & Hlook & Hsame & ->)]]).
  - destruct (decide (k' = k)) as [-> | Hne].
    + destruct Hpre as [l Hl]. rewrite Hl. apply elem_of_app. left.
      unfold Rd.index at 1. rewrite lookup_insert_eq.
      apply elem_of_app. right. by left.
    + eapply IH; [done | |].
      * exists sv. split; [| done].
        apply elem_of_cons in Hin as [-> | Hin]; [| done].
        unfold has_epoch in *. congruence.
      * intros w. destruct (decide (k = Rd.iss_keys)) as [-> | Hidx].
        -- by rewrite lookup_insert_eq.
        -- rewrite lookup_insert_ne by done.
           rewrite lookup_insert_ne by done. apply Hnew.
  - destruct (decide (k' = k)) as [-> | Hne]; [by destruct (Hnew stored) |].
    eapply IH; [done | |].
    + exists sv. split; [| done].
      apply elem_of_cons in Hin as [-> | Hin]; [| done].
      unfold has_epoch in *. congruence.
    + intros w. rewrite lookup_insert_ne by done. apply Hnew.
  - destruct (decide (k' = k)) as [-> | Hne]; [by destruct (Hnew stored) |].
    eapply IH; [done | | done].
    exists sv. split; [| done].
    apply elem_of_cons in Hin as [-> | Hin]; [| done].
    unfold has_epoch in *. congruence.
Qed.

(** C9. The parameters are validated after the store has been written: for
    every request whose download gave a non-empty feed and whose ingestion
    loop ran to its end, a [limit] that is no integer, an [offset] that is no
    integer and an [offset] out of range are each answered with their error
    payload, and the database the request leaves behind that answer is the
    one the loop wrote: the index it found is extended, every epoch of the
    feed that held no sample before is in the index, and for every epoch of
    the feed the database holds the last sample the feed has for it (or one
    Python's [==] finds equal to it, when the loop found that there), which
    is what [epoch_data] returns from then on. *)
Theorem validation_follows_ingestion
    (state_vectors : pyval) (limit offset : option string)
    (db : redis) (svs : list pyval) (evs : list event) :
  PyVal.truthy state_vectors = true →
  PyVal.iter state_vectors = Ok svs →
  (store_state_vectors svs db).2 = Ok evs →
  let n := Z.of_nat (length svs) in
  let served := read_iss_data (Parsed state_vectors) limit offset db in
  ((query_int limit n = None →
    served.2 = Ok (error_response "limit parameter must be an integer")) ∧
   (is_Some (query_int limit n) → query_int offset 0 = None →
    served.2 = Ok (error_response "offset parameter must be an integer")) ∧
   (∀ off, is_Some (query_int limit n) → query_int offset 0 = Some off →
           n ≤ off →
    served.2 = Ok (error_response "offset param. out of range."))) ∧
  served.1 = (store_state_vectors svs db).1 ∧
  Rd.index db `prefix_of` Rd.index served.1 ∧
  (∀ sv, sv ∈ svs →
     ∃ k, has_epoch sv k ∧
          ((∀ w, db !! k ≠ Some (RString w)) → k ∈ Rd.index served.1)) ∧
  (∀ pre sv post k,
     svs = (pre ++ sv :: post)%list →
     has_epoch sv k →
     (∀ sv', sv' ∈ post → ¬ has_epoch sv' k) →
     ∃ v, served.1 !! k = Some (RString v) ∧
          (v = sv ∨ PyVal.eqb v sv = true) ∧
          epoch_data k served.1 = (served.1, Ok v)).
Proof.
  intros Htruthy Hiter Hends n served.
  destruct (store_state_vectors svs db) as [db1 out] eqn:Hloop.
  simpl in Hends. subst out.
  assert (served = read_iss_data (Parsed state_vectors) limit offset db)
    as Hserved by done.
  rewrite (read_iss_data_after_ingestion _ _ _ _ svs db1 evs) in Hserved
    by done.
  cbv zeta in Hserved. fold n in Hserved.
  assert (served.1 = db1) as Hdb.
  { subst served. rewrite (read_iss_data_db _ _ _ _ svs) by done.
    by rewrite Hloop. }
  rewrite Hdb. split_and!.
  - intros Hlim. rewrite Hlim in Hserved. by rewrite Hserved.
  - intros [lim Hlim] Hoff. rewrite Hlim, Hoff in Hserved. by rewrite Hserved.
  - intros off [lim Hlim] Hoff Hge. rewrite Hlim, Hoff in Hserved.
    rewrite (proj2 (Z.leb_le _ _) Hge) in Hserved. by rewrite Hserved.
  - done.
  - pose proof (store_state_vectors_grows svs db) as [Hpre _].
    by rewrite Hloop in Hpre.
  - intros sv Hin. destruct (loop_epochs _ _ _ _ Hloop sv Hin) as [k Hk].
    exists k. split; [done |]. intros Hnew.
    eapply new_epoch_listed; eauto.
  - intros pre sv post k -> Hk Hlast.
    destruct (loop_last_write _ _ _ _ _ _ _ Hloop Hk Hlast) as (v & Hv & Heq).
    exists v. split_and!; [done | done |]. by apply epoch_data_stored.
Qed.

Lemma validation_follows_ingestion_witness :
  let k0 := "2025-063T12:00:00.000Z" in
  let k1 := "2025-063T12:01:00.000Z" in
  let served :=
    read_iss_data (Parsed (VList Mock.mock_iss_data)) (Some "abc") None ∅ in
  (served.2 = Ok (error_response "limit parameter must be an integer") ∧
   (read_iss_data (Parsed (VList Mock.mock_iss_data)) None (Some "x") ∅).2
   = Ok (error_response "offset parameter must be an integer") ∧
   (read_iss_data (Parsed (VList Mock.mock_iss_data)) None (Some "2") ∅).2
   = Ok (error_response "offset param. out of range.")) ∧
  (Rd.index (∅ : redis) = [] ∧ (∅ : redis) !! k1 = None ∧
   Rd.index served.1 = [k0; k1] ∧
   served.1 !! k0 = Some (RString Mock.sv0) ∧
   served.1 !! k1 = Some (RString Mock.sv1)) ∧
  k1 ∈ Rd.index served.1 ∧
  (∃ v, served.1 !! k1 = Some (RString v) ∧
        (v = Mock.sv1 ∨ PyVal.eqb v Mock.sv1 = true) ∧
        epoch_data k1 served.1 = (served.1, Ok v)).
Proof.
  intros k0 k1 served.
  assert ((store_state_vectors Mock.mock_iss_data ∅).2
          = Ok [AddingNewEpoch k0; AddingNewEpoch k1]) as Hends
    by (vm_compute; reflexivity).
  pose proof (validation_follows_ingestion (VList Mock.mock_iss_data)
                (Some "abc") None ∅ Mock.mock_iss_data _
                eq_refl eq_refl Hends) as ((Hlimit & _) & _ & _ & Hlisted & Hheld).
  pose proof (validation_follows_ingestion (VList Mock.mock_iss_data)
                None (Some "x") ∅ Mock.mock_iss_data _
                eq_refl eq_refl Hends) as ((_ & Hoffset & _) & _).
  pose proof (validation_follows_ingestion (VList Mock.mock_iss_data)
                None (Some "2") ∅ Mock.mock_iss_data _
                eq_refl eq_refl Hends) as ((_ & _ & Hrange) & _).
  split; [split_and! |]; [| | | split; [| split]].
  - apply Hlimit. reflexivity.
  - apply Hoffset; [simpl; eauto | reflexivity].
  - apply (Hrange 2); [simpl; eauto | reflexivity | simpl; lia].
  - split_and!; reflexivity.
  - destruct (Hlisted Mock.sv1) as (k & Hk & Hin).
    + right. by left.
    + assert (k = k1) as ->.
      { unfold has_epoch in Hk. vm_compute in Hk. by injection Hk as <-. }
      apply Hin. intros w. by rewrite lookup_empty.
  - apply (Hheld [Mock.sv0] Mock.sv1 [] k1); [reflexivity | reflexivity |].
    intros sv' Hin. by apply elem_of_nil in Hin.
Defined.

(** ** What the listing returns *)

Lemma slice_bound_inside n i : 0 ≤ i ≤ n → slice_bound n i = i.
Proof. intros H. unfold slice_bound. destruct (i <? 0) eqn:E; lia. Qed.

(** With bounds that are not negative a slice is a [take] of a [drop]. *)
Lemma py_slice_take_drop {A} (l : list A) (a k : Z) :
  0 ≤ a → 0 ≤ k →
  py_slice l a (a + k) = take (Z.to_nat k) (drop (Z.to_nat a) l).
Proof.
  intros Ha Hk. unfold py_slice, slice_bound.
  destruct (a <? 0) eqn:Ea; [lia |]. destruct (a + k <? 0) eqn:Eb; [lia |].
  destruct (decide (a ≤ Z.of_nat (length l))) as [Hle | Hgt].
  - rewrite (Z.min_l a) by done.
    destruct (decide (a + k ≤ Z.of_nat (length l))) as [Hle' | Hgt'].
    + rewrite Z.min_l by done. f_equal. lia.
    + rewrite Z.min_r by lia.
      rewrite !take_ge; [done | |]; rewrite length_drop; lia.
  - rewrite !Z.min_r by lia.
    rewrite !drop_ge by lia. by rewrite !take_nil.
Qed.

Lemma stored_samples_of_index db (svs : list pyval) (ks : list string) :
  Rd.index db = ks →
  Forall2 (λ sv k, db !! k = Some (RString sv)) svs ks →
  stored_samples db = svs.
Proof.
  intros Hidx Hstored. unfold stored_samples. rewrite Hidx. clear Hidx.
  induction Hstored as [| sv k svs ks Hk Hrest IH]; [done |].
  simpl in *. rewrite Hk. simpl. by f_equal.
Qed.

(** X7. The first listing is the feed: on the empty database a
    [GET /epochs] request without parameters, whose feed is a non-empty list
    of samples with pairwise distinct epochs other than the index name,
    answers with the samples of the feed in feed order, and the index it
    leaves is the list of their epochs. *)
Theorem first_listing_is_the_feed (svs : list pyval) (ks : list string) :
  svs ≠ [] →
  Forall2 has_epoch svs ks →
  NoDup ks →
  Rd.iss_keys ∉ ks →
  ∃ db1,
    read_iss_data (Parsed (VList svs)) None None ∅ = (db1, Ok (Json (VList svs))) ∧
    Rd.index db1 = ks.
Proof.
  intros Hne Hepochs Hnd Hname.
  destruct (store_new_epochs svs ks ∅ Hepochs Hnd)
    as (db1 & Hloop & Hidx & Hstored & _).
  { intros k Hin. split; [apply lookup_empty | by intros ->]. }
  { intros w. by rewrite lookup_empty. }
  assert (Rd.index db1 = ks) as Hidx' by (rewrite Hidx; done).
  exists db1. split; [| done].
  assert (PyVal.truthy (VList svs) = true) as Htruthy by (by destruct svs).
  rewrite (read_iss_data_after_ingestion _ _ _ _ svs db1 _ Htruthy eq_refl Hloop).
  simpl.
  assert ((Z.of_nat (length svs) <=? 0) = false) as ->.
  { apply Z.leb_gt. destruct svs; [done | simpl; lia]. }
  assert (index_ok db1) as Hok.
  { pose proof (store_state_vectors_index_ok svs ∅ index_ok_empty) as H.
    by rewrite Hloop in H. }
  rewrite (list_stored db1
             (λ stored, Json (VList (py_slice stored 0 (0 + Z.of_nat (length svs))))))
    by (try done; rewrite Hidx'; intros ->;
        apply Forall2_nil_inv_r in Hepochs; done).
  rewrite (stored_samples_of_index db1 svs ks Hidx' Hstored).
  rewrite py_slice_take_drop by lia. simpl.
  rewrite Nat2Z.id. by rewrite take_ge.
Qed.

Lemma first_listing_is_the_feed_witness :
  ∃ db1,
    read_iss_data (Parsed (VList Mock.mock_iss_data)) None None ∅
    = (db1, Ok (Json (VList Mock.mock_iss_data))) ∧
    Rd.index db1 = ["2025-063T12:00:00.000Z"; "2025-063T12:01:00.000Z"].
Proof.
  apply (first_listing_is_the_feed Mock.mock_iss_data
           ["2025-063T12:00:00.000Z"; "2025-063T12:01:00.000Z"]).
  - discriminate.
  - repeat constructor.
  - apply NoDup_cons. split.
    + intros Hin%list_elem_of_singleton. discriminate.
    + apply NoDup_singleton.
  - intros Hin.
    apply elem_of_cons in Hin as [Heq | Hin%list_elem_of_singleton];
      discriminate.
Defined.

(** X8. Paging: when the feed is ingested to its end into a sound store
    that lists at least one key afterwards, and [limit] and [offset] are
    absent or integers with [offset] below the feed length, the handler
    answers with the slice [[offset : offset + limit]] of the stored samples
    in index order. An offset below zero is not refused: the slice then
    counts from the end of the list. With [offset] and [limit] both at
    least zero the answer is the [limit] samples that follow the first
    [offset] ones, and with [limit] at least zero it never holds more than
    [limit] samples. *)
Theorem listing_is_a_page
    (state_vectors : pyval) (limit offset : option string)
    (db db1 : redis) (svs : list pyval) (evs : list event) (lim off : Z) :
  index_ok db →
  PyVal.truthy state_vectors = true →
  PyVal.iter state_vectors = Ok svs →
  store_state_vectors svs db = (db1, Ok evs) →
  Rd.index db1 ≠ [] →
  query_int limit (Z.of_nat (length svs)) = Some lim →
  query_int offset 0 = Some off →
  off < Z.of_nat (length svs) →
  read_iss_data (Parsed state_vectors) limit offset db
  = (db1, Ok (Json (VList (py_slice (stored_samples db1) off (off + lim))))) ∧
  (0 ≤ off → 0 ≤ lim →
   py_slice (stored_samples db1) off (off + lim)
   = take (Z.to_nat lim) (drop (Z.to_nat off) (stored_samples db1))) ∧
  (0 ≤ lim →
   Z.of_nat (length (py_slice (stored_samples db1) off (off + lim))) ≤ lim).
Proof.
  intros Hok Htruthy Hiter Hloop Hne Hlim Hoff Hlt.
  split; [| split; [| by apply py_slice_length]].
  - rewrite (read_iss_data_after_ingestion _ _ _ _ svs db1 evs) by done.
    simpl. rewrite Hlim, Hoff. rewrite (proj2 (Z.leb_gt _ _) Hlt).
    assert (index_ok db1) as Hok1.
    { pose proof (store_state_vectors_index_ok svs db Hok) as H.
      by rewrite Hloop in H. }
    by rewrite (list_stored db1
                  (λ stored, Json (VList (py_slice stored off (off + lim))))).
  - intros Hoff0 Hlim0. by apply py_slice_take_drop.
Qed.

Lemma listing_is_a_page_witness :
  let db := Mock.db_of [Mock.sv0; Mock.sv1; Mock.sv5] in
  read_iss_data (Parsed (VList Mock.mock_iss_data)) (Some "5") (Some "1") db
  = (db, Ok (Json (VList [Mock.sv1; Mock.sv5]))) ∧
  read_iss_data (Parsed (VList Mock.mock_iss_data)) (Some "5") (Some "-1") db
  = (db, Ok (Json (VList [Mock.sv5]))).
Proof.
  intros db.
  assert (index_ok db) as Hok
    by apply store_state_vectors_index_ok, index_ok_empty.
  assert (store_state_vectors Mock.mock_iss_data db
          = (db, Ok [AlreadyExists; AlreadyExists])) as Hloop
    by (vm_compute; reflexivity).
  assert (Rd.index db ≠ []) as Hne by (vm_compute; discriminate).
  split.
  - destruct (listing_is_a_page (VList Mock.mock_iss_data) (Some "5") (Some "1")
                db db Mock.mock_iss_data _ 5 1 Hok eq_refl eq_refl Hloop Hne
                eq_refl eq_refl) as (Hserved & _ & _); [simpl; lia |].
    rewrite Hserved. reflexivity.
  - destruct (listing_is_a_page (VList Mock.mock_iss_data) (Some "5") (Some "-1")
                db db Mock.mock_iss_data _ 5 (-1) Hok eq_refl eq_refl Hloop Hne
                eq_refl eq_refl) as (Hserved & _ & _); [simpl; lia |].
    rewrite Hserved. reflexivity.
Defined.

(** ** Invariants of the store over histories of requests *)

(** What a turn of the loop can leave, however it ends: the database as it
    was, the sample written under its epoch, or the sample written and its
    epoch appended to the list. *)
Lemma store_state_vector_leaves sv db :
  (store_state_vector sv db).1 = db ∨
  ∃ k, has_epoch sv k ∧
    (((store_state_vector sv db).1 = <[k := RString sv]> db ∧
      ((∃ stored, db !! k = Some (RString stored)) ∨
       (db !! k = None ∧
        (k = Rd.iss_keys ∨ ∃ w, db !! Rd.iss_keys = Some (RString w))))) ∨
     (k ≠ Rd.iss_keys ∧ db !! k = None ∧
      (∀ w, db !! Rd.iss_keys ≠ Some (RString w)) ∧
      (store_state_vector sv db).1
      = <[Rd.iss_keys := RList (Rd.index db ++ [k])%list]>
          (<[k := RString sv]> db))).
Proof.
  unfold store_state_vector, bind, lift, ret, has_epoch.
  destruct (PyVal.getitem sv "EPOCH") as [epoch_v | e]; [| by left].
  destruct epoch_v as [| k | |]; simpl; try (by left).
  unfold Rd.exists_.
  destruct (db !! k) as [[stored | l] |] eqn:Hlook.
  - rewrite bool_decide_eq_true_2 by eauto. simpl.
    unfold Rd.get. rewrite Hlook. simpl.
    destruct (PyVal.eqb stored sv); simpl; [by left |].
    right. exists k. split; [done |]. left. split; [done |]. left. eauto.
  - rewrite bool_decide_eq_true_2 by eauto. simpl.
    unfold Rd.get. rewrite Hlook. by left.
  - rewrite bool_decide_eq_false_2 by (intros [? ?]; done). simpl.
    right. exists k. split; [done |]. unfold Rd.rpush.
    destruct (decide (k = Rd.iss_keys)) as [-> | Hne].
    + rewrite lookup_insert_eq. left. split; [done |]. right. auto.
    + rewrite lookup_insert_ne by done. unfold Rd.index.
      destruct (db !! Rd.iss_keys) as [[w | l] |] eqn:Hidx; simpl.
      * left. split; [done |]. right. eauto.
      * right. by split_and!.
      * right. by split_and!.
Qed.


(** An invariant of single turns is an invariant of loops and of
    histories. *)
Lemma loop_invariant (P : redis → Prop) (Q : pyval → Prop) svs db :
  (∀ sv db, Q sv → P db → P (store_state_vector sv db).1) →
  Forall Q svs → P db → P (store_state_vectors svs db).1.
Proof.
  intros Hstep Hsvs. revert db.
  induction Hsvs as [| sv svs Hsv Hrest IH]; intros db HP; simpl; [done |].
  unfold bind. pose proof (Hstep sv db Hsv HP) as HP1.
  destruct (store_state_vector sv db) as [db1 [ev | e]]; simpl in *; [| done].
  pose proof (IH db1 HP1) as HP2.
  by destruct (store_state_vectors svs db1) as [db2 [evs | e]].
Qed.

Lemma history_invariant (P : redis → Prop) (Q : pyval → Prop) history db :
  (∀ sv db, Q sv → P db → P (store_state_vector sv db).1) →
  Forall (λ r, Forall Q (feed_samples r)) history →
  P db → P (after_requests history db).
Proof.
  intros Hstep Hhist. revert db.
  induction Hhist as [| r history Hr Hrest IH]; intros db HP; [done |].
  unfold after_requests. simpl. fold (after_requests history (serve_epochs r db).1).
  apply IH. rewrite serve_epochs_db. by apply (loop_invariant P Q).
Qed.



(** The list slot holds no sample and every key that holds a sample is
    listed. *)
Lemma store_state_vector_listed sv db :
  ¬ has_epoch sv Rd.iss_keys →
  (∀ w, db !! Rd.iss_keys ≠ Some (RString w)) ∧ all_listed db →
  (∀ w, (store_state_vector sv db).1 !! Rd.iss_keys ≠ Some (RString w)) ∧
  all_listed (store_state_vector sv db).1.
Proof.
  intros Hname [Hslot Hlisted].
  destruct (store_state_vector_leaves sv db)
    as [-> | (k & Hk & [[-> Hcase] | (Hne & Hfresh & _ & ->)])]; [done | |].
  - assert (k ≠ Rd.iss_keys) as Hne by (by intros ->).
    destruct Hcase as [[stored Hstored] | [_ [-> | [w Hw]]]];
      [| done | by destruct (Hslot w)].
    split.
    + intros w. rewrite lookup_insert_ne by done. apply Hslot.
    + intros k' v. rewrite index_set_sample by auto.
      destruct (decide (k = k')) as [<- | Hkk'].
      * intros _. by apply (Hlisted k stored).
      * rewrite lookup_insert_ne by done. apply Hlisted.
  - split.
    + intros w. by rewrite lookup_insert_eq.
    + intros k' v Hlook. unfold Rd.index at 1. rewrite lookup_insert_eq.
      destruct (decide (Rd.iss_keys = k')) as [<- | Hik'].
      * by rewrite lookup_insert_eq in Hlook.
      * rewrite lookup_insert_ne in Hlook by done.
        destruct (decide (k = k')) as [<- | Hkk'].
        -- apply elem_of_app. right. by apply list_elem_of_singleton.
        -- rewrite lookup_insert_ne in Hlook by done.
           apply elem_of_app. left. by apply (Hlisted k' v).
Qed.

(** X10. The index and the samples correspond: in a database built from the
    empty one by any history of [GET /epochs] requests none of whose
    samples carries the index name ["iss_keys"] as its epoch, a key is
    listed in the index exactly when it holds a sample. *)
Theorem index_matches_samples (history : list epochs_request) (k : string) :
  Forall (λ r, Forall (λ sv, ¬ has_epoch sv Rd.iss_keys) (feed_samples r))
    history →
  k ∈ Rd.index (after_requests history ∅) ↔
  ∃ v, after_requests history ∅ !! k = Some (RString v).
Proof.
  intros Hhist. split.
  - intros Hin.
    destruct (after_requests_index_ok history ∅ index_ok_empty) as [_ Hmem].
    by apply Hmem.
  - intros [v Hv].
    assert ((∀ w, after_requests history ∅ !! Rd.iss_keys ≠ Some (RString w)) ∧
            all_listed (after_requests history ∅)) as [_ Hlisted].
    { apply (history_invariant
               (λ db, (∀ w, db !! Rd.iss_keys ≠ Some (RString w)) ∧ all_listed db)
               (λ sv, ¬ has_epoch sv Rd.iss_keys)); [| done |].
      - intros sv db. apply store_state_vector_listed.
      - split; [intros w | intros k' v']; by rewrite lookup_empty. }
    by apply (Hlisted k v).
Qed.

Lemma index_matches_samples_witness :
  "2025-063T12:01:00.000Z" ∈ Rd.index (Mock.db_of Mock.mock_iss_data) ↔
  ∃ v, Mock.db_of Mock.mock_iss_data !! "2025-063T12:01:00.000Z"
       = Some (RString v).
Proof.
  apply (index_matches_samples
           [{| fetched := Parsed (VList Mock.mock_iss_data);
               limit_arg := None; offset_arg := None |}]
           "2025-063T12:01:00.000Z").
  repeat constructor; discriminate.
Defined.

(** ** The routes of one epoch *)

(** X11. An epoch that is not a key of the database is answered with a
    payload by each of the three routes of an epoch, and nothing is
    written: [epoch_data] and [epoch_speed] answer ['No matching EPOCH'],
    while [epoch_location] takes the error dict for a sample, fails to
    extract coordinates from it and answers with its extraction message. *)
Theorem unknown_epoch_is_answered
    (py_float : string → option float)
    (libm_pow : float → float → float * Z)
    (gcrs_to_itrs :
       float → float → float → Time.struct_time → outcome (float * float * float))
    (reverse : float → float → Z → outcome (option (option string)))
    (epoch : string) (db : redis) :
  db !! epoch = None →
  epoch_data epoch db = (db, Ok (PyVal.error "No matching EPOCH")) ∧
  epoch_speed py_float libm_pow epoch db = (db, Ok (error_response "No matching EPOCH")) ∧
  epoch_location py_float gcrs_to_itrs reverse epoch db
  = (db, Ok (error_response "Failed to Extract Latitude, Longitude, and Height.")).
Proof.
  intros Hmissing. pose proof (epoch_data_missing db epoch Hmissing) as Hdata.
  split_and!; [done | |].
  - unfold epoch_speed. unfold bind at 1. by rewrite Hdata.
  - unfold epoch_location. unfold bind at 1. by rewrite Hdata.
Qed.

Lemma unknown_epoch_is_answered_witness :
  let db := Mock.db_of Mock.mock_iss_data in
  epoch_data "INVALID_EPOCH" db = (db, Ok (PyVal.error "No matching EPOCH")) ∧
  epoch_speed Mock.py_float Mock.libm_pow "INVALID_EPOCH" db
  = (db, Ok (error_response "No matching EPOCH")) ∧
  epoch_location Mock.py_float Mock.gcrs_to_itrs Mock.reverse "INVALID_EPOCH" db
  = (db, Ok (error_response "Failed to Extract Latitude, Longitude, and Height.")).
Proof.
  intros db.
  apply (unknown_epoch_is_answered Mock.py_float Mock.libm_pow Mock.gcrs_to_itrs Mock.reverse
           "INVALID_EPOCH" db).
  reflexivity.
Defined.

(** X12. The speed of a stored sample: when the sample stored under an
    epoch is a dict without an ['error'] key whose three velocity elements
    carry texts that [float] converts to [x], [y] and [z], with the three
    squares in range on the platform, [epoch_speed] answers with that epoch
    and the binary64 square root of the binary64 sum of the squares of
    [x], [y] and [z] as the C library's [pow] returns them, and writes
    nothing. *)
Theorem epoch_speed_of_stored_sample
    (py_float : string → option float)
    (libm_pow : float → float → float * Z) (epoch : string) (db : redis)
    (items : list (string * pyval)) (xs ys zs : string) (x y z : float) :
  db !! epoch = Some (RString (VDict items)) →
  PyVal.dict_get "error" items = None →
  component_text (VDict items) "X_DOT" = Ok (VStr xs) →
  component_text (VDict items) "Y_DOT" = Ok (VStr ys) →
  component_text (VDict items) "Z_DOT" = Ok (VStr zs) →
  py_float xs = Some x → py_float ys = Some y → py_float zs = Some z →
  square_in_range libm_pow x = true →
  square_in_range libm_pow y = true →
  square_in_range libm_pow z = true →
  epoch_speed py_float libm_pow epoch db
  = (db, Ok (SpeedReport epoch
               (sqrt (square_value libm_pow x + square_value libm_pow y
                      + square_value libm_pow z))%float)).
Proof.
  intros Hstored Hnoerr Hx Hy Hz Hfx Hfy Hfz Hox Hoy Hoz.
  unfold epoch_speed. unfold bind at 1.
  rewrite (epoch_data_stored _ _ _ Hstored).
  unfold bind at 1. unfold lift at 1. simpl. rewrite Hnoerr.
  rewrite bool_decide_eq_false_2 by (intros [? ?]; done).
  rewrite Hx, Hy, Hz. simpl.
  unfold bind, lift. rewrite Hfx, Hfy, Hfz.
  by rewrite compute_speed_in_range.
Qed.

Lemma epoch_speed_of_stored_sample_witness :
  let db := Mock.db_of Mock.mock_iss_data in
  epoch_speed Mock.py_float Mock.libm_pow "2025-063T12:00:00.000Z" db
  = (db, Ok (SpeedReport "2025-063T12:00:00.000Z"
               (sqrt (square_value Mock.libm_pow 2 + square_value Mock.libm_pow 2
                      + square_value Mock.libm_pow 1))%float)) ∧
  (sqrt (square_value Mock.libm_pow 2 + square_value Mock.libm_pow 2
         + square_value Mock.libm_pow 1) = 3)%float.
Proof.
  intros db. split; [| reflexivity].
  apply (epoch_speed_of_stored_sample Mock.py_float Mock.libm_pow
           "2025-063T12:00:00.000Z" db
           [ ("EPOCH", VStr "2025-063T12:00:00.000Z");
             ("X", Mock.quantity "1000.0" "km");
             ("Y", Mock.quantity "2000.0" "km");
             ("Z", Mock.quantity "3000.0" "km");
             ("X_DOT", Mock.quantity "2.0" "km/s");
             ("Y_DOT", Mock.quantity "2.0" "km/s");
             ("Z_DOT", Mock.quantity "1.0" "km/s") ]
           "2.0" "2.0" "1.0" 2%float 2%float 1%float); reflexivity.
Defined.

(** ** [GET /now] over an index whose keys parse *)

(** Over keys that parse the scan ends well, on the key it started from or
    on one of the keys. *)
Lemma closest_scan_picks now keys c m :
  Forall (λ k, ∃ d, signed_diff now k d) keys →
  ∃ r, closest_scan now keys c m = Ok r ∧
       (r = c ∨ ∃ k, r = Some k ∧ k ∈ keys).
Proof.
  intros Hparse. revert c m.
  induction Hparse as [| k0 rest (d0 & t0 & Hparse0 & Hd0) Hrest IH];
    intros c m; simpl.
  - exists c. split; [done | by left].
  - rewrite Hparse0. simpl.
    destruct (abs_below _ m).
    + destruct (IH (Some k0) (Seconds (now - Time.mktime t0)))
        as (r & Hscan & [-> | (k & -> & Hin)]);
        eexists; (split; [done |]); right; eexists; (split; [done |]).
      * by left.
      * by right.
    + destruct (IH c m) as (r & Hscan & [-> | (k & -> & Hin)]);
        eexists; (split; [done |]); [by left |].
      right. eexists. split; [done | by right].
Qed.

(** X13. [GET /now] answers for an indexed key: when the index is not empty
    and all its keys parse, the scan retains one of the indexed keys and
    [now_epoch_speed] answers exactly what [epoch_speed] answers for that
    key; the branch where no key was retained is never taken. *)
Theorem now_answers_for_an_indexed_key
    (py_float : string → option float)
    (libm_pow : float → float → float * Z)
    (now_time_in_seconds : Z) (db : redis) :
  Rd.index db ≠ [] →
  Forall (λ k, ∃ d, signed_diff now_time_in_seconds k d) (Rd.index db) →
  ∃ k, k ∈ Rd.index db ∧
       closest_scan now_time_in_seconds (Rd.index db) None Infinity = Ok (Some k) ∧
       now_epoch_speed py_float libm_pow now_time_in_seconds db
       = epoch_speed py_float libm_pow k db.
Proof.
  intros Hne Hparse. unfold now_epoch_speed, bind, Rd.lrange_all.
  unfold Rd.index in *.
  destruct (db !! Rd.iss_keys) as [[w | keys] |]; try done.
  destruct keys as [| k0 rest]; [done |].
  pose proof Hparse as [(d0 & t0 & Hparse0 & Hd0) Hrest]%Forall_cons.
  unfold lift. simpl. rewrite Hparse0. simpl.
  destruct (closest_scan_picks now_time_in_seconds rest (Some k0)
              (Seconds (now_time_in_seconds - Time.mktime t0)) Hrest)
    as (r & Hscan & [-> | (k & -> & Hin)]); rewrite Hscan.
  - exists k0. split_and!; [by left | done | done].
  - exists k. split_and!; [by right | done | done].
Qed.

Lemma now_answers_for_an_indexed_key_witness :
  let db := Mock.db_of [Mock.sv0; Mock.sv1; Mock.sv5] in
  ∃ k, k ∈ Rd.index db ∧
       closest_scan (Mock.noon + 100) (Rd.index db) None Infinity = Ok (Some k) ∧
       now_epoch_speed Mock.py_float Mock.libm_pow (Mock.noon + 100) db
       = epoch_speed Mock.py_float Mock.libm_pow k db.
Proof.
  intros db.
  apply (now_answers_for_an_indexed_key Mock.py_float Mock.libm_pow (Mock.noon + 100) db).
  - vm_compute. discriminate.
  - change (Rd.index db)
      with ["2025-063T12:00:00.000Z"; "2025-063T12:01:00.000Z";
            "2025-063T12:05:00.000Z"].
    repeat constructor; eexists; eexists; (split; [reflexivity |]); reflexivity.
Defined.

(** ** The scan over an index in time order *)

Lemma signed_diff_unique now k d d' :
  signed_diff now k d → signed_diff now k d' → d = d'.
Proof. intros (t & Ht & ->) (t' & Ht' & ->). congruence. Qed.

Lemma signed_diff_distance now k d :
  signed_diff now k d → time_distance now k = Ok (Z.abs d).
Proof.
  intros (t & Hparse & ->). unfold time_distance. rewrite Hparse. simpl.
  f_equal. lia.
Qed.

(** A key not later than another stands at least as many seconds before the
    target. *)
Lemma not_later_diff now k k' d d' :
  not_later k k' → signed_diff now k d → signed_diff now k' d' → d' ≤ d.
Proof.
  intros (t & t' & Ht & Ht' & Hle) (st & Hst & ->) (st' & Hst' & ->).
  unfold parsed_time in *. rewrite Hst in Ht. rewrite Hst' in Ht'.
  simpl in *. inversion Ht; inversion Ht'; subst. lia.
Qed.

(** Keys at least as far as the bound change nothing. *)
Lemma closest_scan_keeps now keys c m :
  Forall (λ k, ∃ d, signed_diff now k d ∧ m ≤ Z.abs d) keys →
  closest_scan now keys c (Seconds m) = Ok c.
Proof.
  induction 1 as [| k0 rest (d0 & (t0 & Hparse0 & ->) & Hfar) Hrest IH];
    simpl; [done |].
  rewrite Hparse0. simpl.
  by rewrite (proj2 (Z.ltb_ge _ _) Hfar).
Qed.

(** From a retained key [c] with a bound [m] that is not negative, over
    keys in time order none of which stands more than [m] seconds before
    the target: the scan keeps [c], no key being closer than [m], or ends
    on the first of the keys of least distance. *)
Lemma closest_scan_sorted_from now keys c m :
  0 ≤ m →
  Forall (λ k, ∃ d, signed_diff now k d ∧ d ≤ m) keys →
  StronglySorted not_later keys →
  (closest_scan now keys (Some c) (Seconds m) = Ok (Some c) ∧
   Forall (λ k, ∃ d, signed_diff now k d ∧ m ≤ Z.abs d) keys) ∨
  (∃ pre k post d,
     keys = (pre ++ k :: post)%list ∧
     closest_scan now keys (Some c) (Seconds m) = Ok (Some k) ∧
     signed_diff now k d ∧ Z.abs d < m ∧
     Forall (λ k', ∃ d', signed_diff now k' d' ∧ Z.abs d < Z.abs d') pre ∧
     Forall (λ k', ∃ d', signed_diff now k' d' ∧ Z.abs d ≤ Z.abs d') post).
Proof.
  intros Hm Hkeys. revert c m Hm Hkeys.
  induction keys as [| k0 rest IH]; intros c m Hm Hkeys Hsorted.
  - left. by split.
  - apply Forall_cons in Hkeys as [(d0 & Hk0 & Hd0) Hrest].
    apply StronglySorted_inv in Hsorted as [Hsorted Hhead].
    assert (Forall (λ k, ∃ d, signed_diff now k d ∧ d ≤ d0) rest) as Hbelow.
    { rewrite Forall_forall in Hrest, Hhead |- *. intros k Hin.
      destruct (Hrest k Hin) as (d & Hk & _). exists d. split; [done |].
      by apply (not_later_diff now k0 k d0 d (Hhead k Hin)). }
    pose proof Hk0 as (t0 & Hparse0 & Hdiff0).
    simpl. rewrite Hparse0. simpl. rewrite <- Hdiff0.
    destruct (Z.abs d0 <? m) eqn:Hlt.
    + apply Z.ltb_lt in Hlt. right.
      destruct (decide (0 ≤ d0)) as [Hpos | Hneg].
      * destruct (IH k0 d0 Hpos Hbelow Hsorted)
          as [[Hscan Hall]
             | (pre & k & post & d & -> & Hscan & Hk & Hd & Hpre & Hpost)].
        -- exists [], k0, rest, d0. split_and!; try done.
           eapply Forall_impl; [exact Hall |].
           intros k (d & Hk & Hle). exists d. split; [done | lia].
        -- exists (k0 :: pre), k, post, d. split_and!; try done; [lia |].
           constructor; [| done]. exists d0. split; [done | lia].
      * exists [], k0, rest, d0. split_and!; try done.
        -- apply closest_scan_keeps.
           eapply Forall_impl; [exact Hbelow |].
           intros k (d & Hk & Hle). exists d. split; [done | lia].
        -- eapply Forall_impl; [exact Hbelow |].
           intros k (d & Hk & Hle). exists d. split; [done | lia].
    + apply Z.ltb_ge in Hlt.
      assert (Forall (λ k, ∃ d, signed_diff now k d ∧ d ≤ m) rest) as Hbelow'.
      { eapply Forall_impl; [exact Hbelow |].
        intros k (d & Hk & Hle). exists d. split; [done | lia]. }
      destruct (IH c m Hm Hbelow' Hsorted)
        as [[Hscan Hall]
           | (pre & k & post & d & -> & Hscan & Hk & Hd & Hpre & Hpost)].
      * left. split; [done |]. constructor; [| done]. by exists d0.
      * right. exists (k0 :: pre), k, post, d. split_and!; try done.
        constructor; [| done]. exists d0. split; [done | lia].
Qed.

(** X14. Over an index in time order the scan is right: when the keys are
    not empty, all parse and stand in ascending order of time, whether
    before or after the target, [closest_scan] returns a key of least
    distance to the target, and among several the first in scan order. *)
Theorem scan_of_sorted_keys_is_nearest (now : Z) (keys : list string) :
  keys ≠ [] →
  Forall (λ k, ∃ d, signed_diff now k d) keys →
  StronglySorted not_later keys →
  ∃ pre k post d,
    keys = (pre ++ k :: post)%list ∧
    closest_scan now keys None Infinity = Ok (Some k) ∧
    time_distance now k = Ok d ∧
    Forall (λ k', ∃ d', time_distance now k' = Ok d' ∧ d < d') pre ∧
    Forall (λ k', ∃ d', time_distance now k' = Ok d' ∧ d ≤ d') post.
Proof.
  intros Hne Hparse Hsorted. destruct keys as [| k0 rest]; [done |].
  apply Forall_cons in Hparse as [[d0 Hk0] Hrest].
  apply StronglySorted_inv in Hsorted as [Hsorted Hhead].
  assert (Forall (λ k, ∃ d, signed_diff now k d ∧ d ≤ d0) rest) as Hbelow.
  { rewrite Forall_forall in Hrest, Hhead |- *. intros k Hin.
    destruct (Hrest k Hin) as (d & Hk). exists d. split; [done |].
    by apply (not_later_diff now k0 k d0 d (Hhead k Hin)). }
  assert (∀ (b : Z) (R : Z → Z → Prop) l,
            Forall (λ k', ∃ d', signed_diff now k' d' ∧ R b (Z.abs d')) l →
            Forall (λ k', ∃ d', time_distance now k' = Ok d' ∧ R b d') l)
    as Hweaken.
  { intros b R l Hl. eapply Forall_impl; [exact Hl |].
    intros k' (d' & Hk' & HR). exists (Z.abs d').
    split; [by apply signed_diff_distance | done]. }
  pose proof Hk0 as (t0 & Hparse0 & Hdiff0).
  simpl. rewrite Hparse0. simpl. rewrite <- Hdiff0.
  destruct (decide (0 ≤ d0)) as [Hpos | Hneg].
  - destruct (closest_scan_sorted_from now rest k0 d0 Hpos Hbelow Hsorted)
      as [[Hscan Hall]
         | (pre & k & post & d & -> & Hscan & Hk & Hd & Hpre & Hpost)].
    + exists [], k0, rest, (Z.abs d0). split_and!; try done.
      * by apply signed_diff_distance.
      * apply (Hweaken (Z.abs d0) Z.le).
        eapply Forall_impl; [exact Hall |].
        intros k (d & Hk & Hle). exists d. split; [done | lia].
    + exists (k0 :: pre), k, post, (Z.abs d). split_and!; try done.
      * by apply signed_diff_distance.
      * constructor; [| by apply (Hweaken (Z.abs d) Z.lt)].
        exists (Z.abs d0). split; [by apply signed_diff_distance | lia].
      * by apply (Hweaken (Z.abs d) Z.le).
  - exists [], k0, rest, (Z.abs d0). split_and!; try done.
    + apply closest_scan_keeps.
      eapply Forall_impl; [exact Hbelow |].
      intros k (d & Hk & Hle). exists d. split; [done | lia].
    + by apply signed_diff_distance.
    + apply (Hweaken (Z.abs d0) Z.le).
      eapply Forall_impl; [exact Hbelow |].
      intros k (d & Hk & Hle). exists d. split; [done | lia].
Qed.

Lemma scan_of_sorted_keys_is_nearest_witness :
  let keys := ["2025-063T12:00:00.000Z"; "2025-063T12:01:00.000Z";
               "2025-063T12:05:00.000Z"] in
  ∃ pre k post d,
    keys = (pre ++ k :: post)%list ∧
    closest_scan (Mock.noon + 100) keys None Infinity = Ok (Some k) ∧
    time_distance (Mock.noon + 100) k = Ok d ∧
    Forall (λ k', ∃ d', time_distance (Mock.noon + 100) k' = Ok d' ∧ d < d') pre ∧
    Forall (λ k', ∃ d', time_distance (Mock.noon + 100) k' = Ok d' ∧ d ≤ d') post.
Proof.
  intros keys.
  apply (scan_of_sorted_keys_is_nearest (Mock.noon + 100) keys).
  - discriminate.
  - repeat constructor; eexists; eexists; (split; [reflexivity |]); reflexivity.
  - repeat constructor;
      eexists; eexists; (split; [reflexivity |]); (split; [reflexivity |]);
      vm_compute; discriminate.
Defined.

(** ** The geocoder loop *)

Section Geocoder.

Variable reverse : float → float → Z → outcome (option (option string)).
Variables lat lon : float.

Lemma retry_zooms_found zooms name :
  retry_zooms reverse lat lon zooms (Some name) = Ok (Some name).
Proof. by destruct zooms. Qed.

(** Two loops in a row are one loop over both lists of levels. *)
Lemma retry_zooms_app zooms zooms' geoloc :
  obind (retry_zooms reverse lat lon zooms geoloc)
        (retry_zooms reverse lat lon zooms')
  = retry_zooms reverse lat lon (zooms ++ zooms') geoloc.
Proof.
  revert geoloc. induction zooms as [| z zooms IH]; intros [name |]; simpl.
  - by rewrite retry_zooms_found.
  - done.
  - by rewrite retry_zooms_found.
  - destruct (reverse lat lon z) as [geoloc | e]; simpl; [apply IH | done].
Qed.

(** The function is one pass over [zoom_order]. *)
Lemma compute_nearest_geolocation_pass :
  compute_nearest_geolocation reverse lat lon
  = obind (retry_zooms reverse lat lon zoom_order None) (λ geoloc,
      match geoloc with
      | None =>
          Ok "No Nearest Geolocation Found. ISS might be hovering over an ocean."
      | Some display_name => Ok (default "Unknown Geolocation" display_name)
      end).
Proof.
  unfold compute_nearest_geolocation, zoom_order.
  change (retry_zooms reverse lat lon
            [15; 16; 17; 18; 19; 14; 13; 12; 11; 10; 9] None)
    with (obind (reverse lat lon 15)
            (retry_zooms reverse lat lon
               ([16; 17; 18; 19] ++ [14; 13; 12; 11; 10; 9])%list)).
  destruct (reverse lat lon 15) as [geoloc | e]; [| done].
  cbn [obind]. rewrite <- retry_zooms_app.
  by destruct (retry_zooms reverse lat lon [16; 17; 18; 19] geoloc).
Qed.

(** Levels that find no place are passed over. *)
Lemma retry_zooms_skip pre zooms :
  (∀ z, z ∈ pre → reverse lat lon z = Ok None) →
  retry_zooms reverse lat lon (pre ++ zooms) None
  = retry_zooms reverse lat lon zooms None.
Proof.
  induction pre as [| z pre IH]; intros Hnone; simpl; [done |].
  rewrite (Hnone z) by (by left). simpl.
  apply IH. intros z' Hin. apply Hnone. by right.
Qed.

(** X15. The geocoder is asked level by level in the order 15, 16, 17, 18,
    19, 14, 13, 12, 11, 10, 9, and the first level that does not answer "no
    place" decides: a place found there gives its display name (or
    ['Unknown Geolocation'] when it has none), an exception raised there
    leaves the function, and when all eleven levels find no place the
    function returns its message about the ocean. *)
Theorem first_zoom_level_decides :
  (∀ pre z post place,
     zoom_order = (pre ++ z :: post)%list →
     (∀ z', z' ∈ pre → reverse lat lon z' = Ok None) →
     reverse lat lon z = Ok (Some place) →
     compute_nearest_geolocation reverse lat lon
     = Ok (default "Unknown Geolocation" place)) ∧
  (∀ pre z post e,
     zoom_order = (pre ++ z :: post)%list →
     (∀ z', z' ∈ pre → reverse lat lon z' = Ok None) →
     reverse lat lon z = Raise e →
     compute_nearest_geolocation reverse lat lon = Raise e) ∧
  ((∀ z, z ∈ zoom_order → reverse lat lon z = Ok None) →
   compute_nearest_geolocation reverse lat lon
   = Ok "No Nearest Geolocation Found. ISS might be hovering over an ocean.").
Proof.
  split_and!.
  - intros pre z post place Horder Hnone Hfound.
    rewrite compute_nearest_geolocation_pass, Horder.
    rewrite retry_zooms_skip by done. simpl. rewrite Hfound. simpl.
    by rewrite retry_zooms_found.
  - intros pre z post e Horder Hnone Hraise.
    rewrite compute_nearest_geolocation_pass, Horder.
    rewrite retry_zooms_skip by done. simpl. by rewrite Hraise.
  - intros Hnone. rewrite compute_nearest_geolocation_pass.
    rewrite <- (app_nil_r zoom_order). by rewrite retry_zooms_skip.
Qed.

End Geocoder.

Lemma first_zoom_level_decides_witness :
  let reverse (lat lon : float) (zoom : Z) :=
    if zoom =? 17 then Ok (Some (Some "Austin, Texas")) else Ok None in
  compute_nearest_geolocation reverse 30%float (-97)%float
  = Ok (default "Unknown Geolocation" (Some "Austin, Texas")).
Proof.
  intros reverse.
  apply (proj1 (first_zoom_level_decides reverse 30%float (-97)%float)
           [15; 16] 17 [18; 19; 14; 13; 12; 11; 10; 9]).
  - reflexivity.
  - intros z' Hin.
    apply elem_of_cons in Hin as [-> | Hin%list_elem_of_singleton];
      [| subst z']; reflexivity.
  - reflexivity.
Defined.

(** ** Requests that write nothing *)

(** X16. Only a download with samples can change the database: the routes
    [epoch_data], [epoch_speed], [now_epoch_speed] and [epoch_location]
    leave it as it is however they end, and so does [read_iss_data] when
    the download failed, the document was malformed, the way to the samples
    met a value that takes no subscript (the [TypeError] then leaves the
    handler) or the feed was empty. *)
Theorem reads_and_failed_downloads_write_nothing
    (py_float : string → option float)
    (libm_pow : float → float → float * Z)
    (gcrs_to_itrs :
       float → float → float → Time.struct_time → outcome (float * float * float))
    (reverse : float → float → Z → outcome (option (option string)))
    (db : redis) :
  (∀ epoch, (epoch_data epoch db).1 = db) ∧
  (∀ epoch, (epoch_speed py_float libm_pow epoch db).1 = db) ∧
  (∀ now, (now_epoch_speed py_float libm_pow now db).1 = db) ∧
  (∀ epoch, (epoch_location py_float gcrs_to_itrs reverse epoch db).1 = db) ∧
  (∀ limit offset,
     read_iss_data RequestFailed limit offset db
     = (db, Ok (error_response "failed to fetch iss data")) ∧
     read_iss_data MalformedXml limit offset db
     = (db, Ok (error_response "error parsing XML data")) ∧
     read_iss_data NotSubscriptable limit offset db
     = (db, Raise TypeError)) ∧
  (∀ state_vectors limit offset,
     PyVal.truthy state_vectors = false →
     read_iss_data (Parsed state_vectors) limit offset db
     = (db, Ok (error_response "No ISSS StateVectors found"))).
Proof.
  split_and!.
  - intros epoch. apply epoch_data_reads.
  - intros epoch. apply epoch_speed_reads.
  - intros now. apply now_epoch_speed_reads.
  - intros epoch. apply epoch_location_reads.
  - done.
  - intros state_vectors limit offset Hfalsy. unfold read_iss_data.
    by rewrite Hfalsy.
Qed.

Lemma reads_and_failed_downloads_write_nothing_witness :
  let db := Mock.db_of Mock.mock_iss_data in
  (now_epoch_speed Mock.py_float Mock.libm_pow Mock.noon db).1 = db ∧
  read_iss_data (Parsed (VList [])) None None db
  = (db, Ok (error_response "No ISSS StateVectors found")).
Proof.
  intros db.
  destruct (reads_and_failed_downloads_write_nothing Mock.py_float Mock.libm_pow
              Mock.gcrs_to_itrs Mock.reverse db)
    as (_ & _ & Hnow & _ & _ & Hempty).
  split; [apply Hnow | by apply Hempty].
Defined.

(** ** The two timestamp formats *)

Section Formats.

(** What follows the seconds in a key of the feed's form: a dot, which is no
    digit, and the rest. *)
Variable tail : list ascii.
Hypothesis tail_dot : ∃ rest, tail = "."%char :: rest.

Lemma digits_run_app l :
  Time.digits_run (l ++ tail)
  = ((Time.digits_run l).1, ((Time.digits_run l).2 ++ tail)%list).
Proof.
  destruct tail_dot as [rest ->].
  induction l as [| c l IH]; simpl; [done |].
  destruct (Time.is_digit c); [| done].
  rewrite IH. by destruct (Time.digits_run l).
Qed.

Lemma field_app minlen maxlen lo hi l :
  Time.field minlen maxlen lo hi (l ++ tail)
  = (λ vr, (vr.1, (vr.2 ++ tail)%list)) <$> Time.field minlen maxlen lo hi l.
Proof.
  unfold Time.field. rewrite digits_run_app.
  destruct (Time.digits_run l) as [ds rest]. simpl.
  by destruct (_ && _).
Qed.

(** A literal other than the dot cannot be found at the head of [tail]. *)
Lemma literal_app c l :
  Ascii.eqb (Time.lower ".") (Time.lower c) = false →
  Time.literal c (l ++ tail) = (λ r, (r ++ tail)%list) <$> Time.literal c l.
Proof.
  intros Hc. destruct tail_dot as [rest ->].
  destruct l as [| c' l]; unfold Time.literal; cbn [app].
  - by rewrite Hc.
  - by destruct (Ascii.eqb (Time.lower c') _).
Qed.

Lemma date_and_time_app l :
  Time.date_and_time (l ++ tail)
  = (λ fr, (fr.1, (fr.2 ++ tail)%list)) <$> Time.date_and_time l.
Proof.
  unfold Time.date_and_time.
  rewrite field_app.
  destruct (Time.field 4 4 0 9999 l) as [[year l1] |]; simpl; [| done].
  rewrite literal_app by done.
  destruct (Time.literal "-" l1) as [l2 |]; simpl; [| done].
  rewrite field_app.
  destruct (Time.field 1 3 1 366 l2) as [[julian l3] |]; simpl; [| done].
  rewrite literal_app by done.
  destruct (Time.literal "T" l3) as [l4 |]; simpl; [| done].
  rewrite field_app.
  destruct (Time.field 1 2 0 23 l4) as [[hour l5] |]; simpl; [| done].
  rewrite literal_app by done.
  destruct (Time.literal ":" l5) as [l6 |]; simpl; [| done].
  rewrite field_app.
  destruct (Time.field 1 2 0 59 l6) as [[minute l7] |]; simpl; [| done].
  rewrite literal_app by done.
  destruct (Time.literal ":" l7) as [l8 |]; simpl; [| done].
  rewrite field_app.
  by destruct (Time.field 1 2 0 61 l8) as [[second l9] |].
Qed.

End Formats.

Lemma list_ascii_of_string_app s t :
  list_ascii_of_string (String.append s t)
  = (list_ascii_of_string s ++ list_ascii_of_string t)%list.
Proof. induction s as [| c s IH]; simpl; [done | by rewrite IH]. Qed.

Lemma digit_value_range c :
  Time.is_digit c = true → 0 ≤ Time.digit_value c ≤ 9.
Proof.
  unfold Time.is_digit, Time.digit_value. intros H.
  apply andb_prop in H as [Hlo Hhi].
  apply Nat.leb_le in Hlo, Hhi. lia.
Qed.

Lemma literal_cons c c' l :
  Time.literal c (c' :: l)
  = if Ascii.eqb (Time.lower c') (Time.lower c) then Some l else None.
Proof. done. Qed.

(** A fraction of three digits and the final [Z] are accepted after the
    seconds. *)
Lemma fraction_of_three_digits a b c :
  Time.is_digit a = true → Time.is_digit b = true → Time.is_digit c = true →
  ∃ v, Time.field 1 6 0 999999 [a; b; c; "Z"%char] = Some (v, ["Z"%char]).
Proof.
  intros Ha Hb Hc. unfold Time.field. simpl. rewrite Ha, Hb, Hc. simpl.
  pose proof (digit_value_range a Ha). pose proof (digit_value_range b Hb).
  pose proof (digit_value_range c Hc).
  unfold Time.number. simpl.
  rewrite (proj2 (Z.leb_le 0 _)) by lia.
  rewrite (proj2 (Z.leb_le _ 999999)) by lia.
  eauto.
Qed.

(** X17. The two timestamp formats agree on keys of the feed's form: for a
    key that ends in a dot, three digits and [Z], cutting the last five
    characters leaves what stands before the dot, and the conversion of
    [compute_location_astropy] on the cut key gives exactly what the parse
    of [now_epoch_speed] gives on the whole key: the same [struct_time], or
    [ValueError] for both. *)
Theorem formats_agree_on_millisecond_keys (body : string) (a b c : ascii) :
  Time.is_digit a = true →
  Time.is_digit b = true →
  Time.is_digit c = true →
  let key :=
    String.append body (String "." (String a (String b (String c "Z")))) in
  drop_last5 key = body ∧
  Time.strptime_seconds (drop_last5 key) = Time.strptime_epoch key.
Proof.
  intros Ha Hb Hc key.
  assert (list_ascii_of_string key
          = (list_ascii_of_string body ++ ["."%char; a; b; c; "Z"%char])%list)
    as Hkey by apply list_ascii_of_string_app.
  assert (drop_last5 key = body) as Hcut.
  { unfold drop_last5, py_slice, slice_bound. rewrite Hkey. simpl.
    rewrite length_app. simpl.
    replace (Z.to_nat (_ - _)) with (length (list_ascii_of_string body)) by lia.
    replace (Z.to_nat (Z.min _ _)) with 0%nat by lia.
    rewrite drop_0, take_app_length. apply string_of_list_ascii_of_string. }
  split; [done |]. rewrite Hcut.
  unfold Time.strptime_seconds, Time.strptime_epoch. rewrite Hkey.
  rewrite date_and_time_app by eauto.
  destruct (Time.date_and_time (list_ascii_of_string body))
    as [[[[[[year julian] hour] minute] second] rest] |]; simpl; [| done].
  destruct rest as [| r0 rest].
  - destruct (fraction_of_three_digits a b c Ha Hb Hc) as [v Hv].
    cbn [app].
    change (Time.literal "." ["."%char; a; b; c; "Z"%char])
      with (Some [a; b; c; "Z"%char]).
    cbn [mbind option_bind]. rewrite Hv. reflexivity.
  - cbn [app]. rewrite literal_cons.
    destruct (Ascii.eqb (Time.lower r0) _); cbn [mbind option_bind]; [| done].
    rewrite field_app by eauto.
    destruct (Time.field 1 6 0 999999 rest) as [[v rest'] |];
      cbn [fmap option_fmap option_map mbind option_bind fst snd]; [| done].
    destruct rest' as [| r1 rest']; cbn [app]; [done |].
    rewrite literal_cons.
    destruct (Ascii.eqb (Time.lower r1) _); cbn [mbind option_bind]; [| done].
    by destruct rest'.
Qed.

Lemma formats_agree_on_millisecond_keys_witness :
  drop_last5 "2025-063T12:00:00.000Z" = "2025-063T12:00:00" ∧
  Time.strptime_seconds (drop_last5 "2025-063T12:00:00.000Z")
  = Time.strptime_epoch "2025-063T12:00:00.000Z".
Proof.
  apply (formats_agree_on_millisecond_keys "2025-063T12:00:00" "0" "0" "0");
    reflexivity.
Defined.

(** ** Speed and location *)

Lemma SFsqrt_nonneg prec emax s : sf_nonneg (SFsqrt prec emax s).
Proof.
  destruct s as [sx | sx | | sx mx ex]; simpl; try done.
  - by destruct sx.
  - destruct sx; [done |].
    destruct (SFsqrt_core_binary prec emax (Z.pos mx) ex) as [[mz ez] lz].
    apply binary_round_aux_nonneg.
Qed.

(** X18. A speed is never below zero: whatever the components and whatever
    the platform's [pow] returns, when [compute_speed] returns a value the
    comparison [value < 0] is false. *)
Theorem speed_is_not_negative
    (libm_pow : float → float → float * Z) (x y z r : float) :
  compute_speed libm_pow x y z = Ok r → PrimFloat.ltb r 0%float = false.
Proof.
  unfold compute_speed, obind.
  destruct (float_square libm_pow x) as [xx |]; [| done].
  destruct (float_square libm_pow y) as [yy |]; [| done].
  destruct (float_square libm_pow z) as [zz |]; [| done].
  unfold math_sqrt. destruct (PrimFloat.ltb _ _); [done |].
  intros H. inversion H; subst.
  rewrite ltb_spec, sqrt_spec.
  change (Prim2SF 0) with (S754_zero false).
  apply SFltb_zero_nonneg, SFsqrt_nonneg.
Qed.

Lemma speed_is_not_negative_witness :
  PrimFloat.ltb (sqrt 26)%float 0%float = false.
Proof.
  apply (speed_is_not_negative Mock.libm_pow 3%float 1%float 4%float
           (sqrt 26)%float).
  reflexivity.
Defined.

Lemma SFabs_opp s : SFabs (SFopp s) = SFabs s.
Proof. by destruct s. Qed.

Lemma abs_opp (x : float) : PrimFloat.abs (- x)%float = PrimFloat.abs x.
Proof. apply Prim2SF_inj. by rewrite !abs_spec, opp_spec, SFabs_opp. Qed.

Lemma is_nan_opp (x : float) :
  PrimFloat.is_nan (- x)%float = PrimFloat.is_nan x.
Proof.
  destruct (PrimFloat.is_nan x) eqn:Hnan.
  - apply is_nan_spec. rewrite opp_spec.
    by rewrite (proj1 (is_nan_spec x) Hnan).
  - destruct (PrimFloat.is_nan (- x)) eqn:Hopp; [| done].
    apply is_nan_spec in Hopp. rewrite opp_spec in Hopp.
    assert (PrimFloat.is_nan x = true); [| congruence].
    apply is_nan_spec. by destruct (Prim2SF x).
Qed.

Lemma eqb_zero_opp (x : float) :
  PrimFloat.eqb (- x)%float 0 = PrimFloat.eqb x 0.
Proof.
  rewrite !FloatAxioms.eqb_spec, opp_spec.
  change (Prim2SF 0) with (S754_zero false).
  destruct (Prim2SF x) as [s | s | | s m e]; simpl; try done; by destruct s.
Qed.

(** The square of a float does not depend on its sign. *)
Lemma float_square_opp libm_pow (x : float) :
  float_square libm_pow (- x)%float = float_square libm_pow x.
Proof.
  rewrite !float_square_abs.
  unfold PrimFloat.is_infinity. rewrite is_nan_opp, eqb_zero_opp, abs_opp.
  destruct (PrimFloat.is_nan x) eqn:Hnan; [| done].
  f_equal. apply Prim2SF_inj. rewrite opp_spec.
  by rewrite (proj1 (is_nan_spec x) Hnan).
Qed.

(** X19. The speed does not depend on the direction along an axis:
    changing the sign of any velocity component leaves the outcome of
    [compute_speed], value or exception, as it is, on every platform. *)
Theorem speed_ignores_signs
    (libm_pow : float → float → float * Z) (x y z : float) :
  compute_speed libm_pow (- x) y z = compute_speed libm_pow x y z ∧
  compute_speed libm_pow x (- y) z = compute_speed libm_pow x y z ∧
  compute_speed libm_pow x y (- z) = compute_speed libm_pow x y z.
Proof.
  unfold compute_speed. by rewrite !float_square_opp.
Qed.

Lemma strptime_seconds_raises s e :
  Time.strptime_seconds s = Raise e → e = ValueError.
Proof.
  unfold Time.strptime_seconds.
  destruct (_ ≫= _) as [[[[[year julian] hour] minute] second] |].
  - apply resolve_raises.
  - by inversion 1.
Qed.

(** A coordinate fails with one of the three exceptions the function
    catches. *)
Lemma coordinate_raises py_float sv axis e :
  coordinate py_float sv axis = Raise e →
  e = KeyError ∨ e = TypeError ∨ e = ValueError.
Proof.
  unfold coordinate, component_text, obind, PyVal.getitem, float_of.
  intros H. repeat case_match; simplify_eq; auto.
Qed.

(** X20. [compute_location_astropy] recovers every failure of its own: for
    a sample that carries a string under ['EPOCH'], as every stored sample
    does, a coordinate that is missing or malformed ends in the triple of
    [None]s, and so does a timestamp that does not parse; with three
    coordinates and a timestamp that parses the function hands them to the
    coordinate transform and ends as the transform does, so that the only
    exceptions that leave the function are those the transform raised. *)
Theorem location_recovers_its_own_failures
    (py_float : string → option float)
    (gcrs_to_itrs :
       float → float → float → Time.struct_time → outcome (float * float * float))
    (sv : pyval) (k : string) :
  has_epoch sv k →
  let located := compute_location_astropy py_float gcrs_to_itrs sv in
  (∀ axis e, axis ∈ ["X"; "Y"; "Z"] →
     coordinate py_float sv axis = Raise e → located = Ok None) ∧
  (∀ e, Time.strptime_seconds (drop_last5 k) = Raise e → located = Ok None) ∧
  (∀ x y z this_epoch,
     coordinate py_float sv "X" = Ok x →
     coordinate py_float sv "Y" = Ok y →
     coordinate py_float sv "Z" = Ok z →
     Time.strptime_seconds (drop_last5 k) = Ok this_epoch →
     located = obind (gcrs_to_itrs x y z this_epoch) (λ loc, Ok (Some loc))) ∧
  (∀ e, located = Raise e →
     ∃ x y z this_epoch,
       coordinate py_float sv "X" = Ok x ∧
       coordinate py_float sv "Y" = Ok y ∧
       coordinate py_float sv "Z" = Ok z ∧
       Time.strptime_seconds (drop_last5 k) = Ok this_epoch ∧
       gcrs_to_itrs x y z this_epoch = Raise e).
Proof.
  intros Hk located. subst located. unfold compute_location_astropy.
  destruct (coordinate py_float sv "X") as [x | ex] eqn:Hx; simpl;
    [| destruct (coordinate_raises _ _ _ _ Hx) as [-> | [-> | ->]];
       split_and!; try done; by intros ? ? ? ? [=]].
  destruct (coordinate py_float sv "Y") as [y | ey] eqn:Hy; simpl;
    [| destruct (coordinate_raises _ _ _ _ Hy) as [-> | [-> | ->]];
       split_and!; try done; by intros ? ? ? ? _ [=]].
  destruct (coordinate py_float sv "Z") as [z | ez] eqn:Hz; simpl;
    [| destruct (coordinate_raises _ _ _ _ Hz) as [-> | [-> | ->]];
       split_and!; try done; by intros ? ? ? ? _ _ [=]].
  rewrite Hk. simpl.
  destruct (Time.strptime_seconds (drop_last5 k)) as [t | et] eqn:Ht.
  - split_and!.
    + intros axis e Hin Hraise.
      repeat (apply elem_of_cons in Hin as [-> | Hin]; [congruence |]).
      by apply elem_of_nil in Hin.
    + done.
    + intros x' y' z' t' [= <-] [= <-] [= <-] [= <-]. done.
    + intros e. destruct (gcrs_to_itrs x y z t) as [loc | eg] eqn:Hg; simpl;
        [done |].
      intros [= <-]. exists x, y, z, t. by split_and!.
  - rewrite (strptime_seconds_raises _ _ Ht). by split_and!.
Qed.

Lemma location_recovers_its_own_failures_witness :
  let gcrs_to_itrs (x y z : float) (t : Time.struct_time)
    : outcome (float * float * float) := Raise OverflowError in
  let no_x := VDict [("EPOCH", VStr "2025-063T12:00:00.000Z")] in
  let bad_y :=
    Mock.state_vector "2025-063T12:00:00.000Z"
      "1000.0" "n/a" "3000.0" "2.0" "2.0" "1.0" in
  (coordinate Mock.py_float no_x "X" = Raise KeyError ∧
   compute_location_astropy Mock.py_float gcrs_to_itrs no_x = Ok None) ∧
  (coordinate Mock.py_float bad_y "Y" = Raise ValueError ∧
   compute_location_astropy Mock.py_float gcrs_to_itrs bad_y = Ok None) ∧
  (Time.strptime_seconds (drop_last5 "2025-400T12:00:00.000Z")
   = Raise ValueError ∧
   compute_location_astropy Mock.py_float gcrs_to_itrs Mock.sv_day400
   = Ok None) ∧
  compute_location_astropy Mock.py_float gcrs_to_itrs Mock.sv0
  = Raise OverflowError ∧
  compute_location_astropy Mock.py_float Mock.gcrs_to_itrs Mock.sv0
  = Ok (Some (1000%float, 2000%float, 3000%float)).
Proof.
  intros gcrs_to_itrs no_x bad_y.
  split; [split; [reflexivity |] |].
  2: split; [split; [reflexivity |] |].
  3: split; [split; [reflexivity |] |].
  4: split.
  - destruct (location_recovers_its_own_failures Mock.py_float gcrs_to_itrs
                no_x "2025-063T12:00:00.000Z" eq_refl) as (Hcoord & _).
    apply (Hcoord "X" KeyError); [by left | reflexivity].
  - destruct (location_recovers_its_own_failures Mock.py_float gcrs_to_itrs
                bad_y "2025-063T12:00:00.000Z" eq_refl) as (Hcoord & _).
    apply (Hcoord "Y" ValueError); [right; by left | reflexivity].
  - destruct (location_recovers_its_own_failures Mock.py_float gcrs_to_itrs
                Mock.sv_day400 "2025-400T12:00:00.000Z" eq_refl)
      as (_ & Htime & _).
    apply (Htime ValueError). reflexivity.
  - destruct (location_recovers_its_own_failures Mock.py_float gcrs_to_itrs
                Mock.sv0 "2025-063T12:00:00.000Z" eq_refl)
      as (_ & _ & Hpass & _).
    etrans; [eapply (Hpass 1000%float 2000%float 3000%float); reflexivity |].
    reflexivity.
  - destruct (location_recovers_its_own_failures Mock.py_float
                Mock.gcrs_to_itrs Mock.sv0 "2025-063T12:00:00.000Z" eq_refl)
      as (_ & _ & Hpass & _).
    etrans; [eapply (Hpass 1000%float 2000%float 3000%float); reflexivity |].
    reflexivity.
Defined.

(** ** A changed sample *)

(** X21. Update in place: when a [GET /epochs] request downloads, as its
    only sample, a value for a stored epoch that differs from the stored
    one, the new value replaces the old under the same key, so that
    [epoch_data] returns it afterwards; the index and all other keys stay
    as they were. *)
Theorem changed_sample_is_replaced
    (sv stored : pyval) (k : string) (limit offset : option string) (db : redis) :
  has_epoch sv k →
  db !! k = Some (RString stored) →
  PyVal.eqb stored sv = false →
  let db1 := (read_iss_data (Parsed (VList [sv])) limit offset db).1 in
  epoch_data k db1 = (db1, Ok sv) ∧
  Rd.index db1 = Rd.index db ∧
  (∀ k', k' ≠ k → db1 !! k' = db !! k').
Proof.
  intros Hk Hstored Hdiff db1. subst db1.
  rewrite (read_iss_data_db _ _ _ _ [sv]) by done.
  assert (store_state_vector sv db
          = (<[k := RString sv]> db, Ok (UpdatingExisting k))) as Hstep.
  { unfold store_state_vector, bind, lift, ret. rewrite Hk. simpl.
    unfold Rd.exists_. rewrite bool_decide_eq_true_2 by eauto. simpl.
    unfold Rd.get. rewrite Hstored. simpl. by rewrite Hdiff. }
  simpl. unfold bind. rewrite Hstep. simpl. split_and!.
  - apply epoch_data_stored, lookup_insert_eq.
  - apply index_set_sample. eauto.
  - intros k' Hne. by rewrite lookup_insert_ne.
Qed.

Lemma changed_sample_is_replaced_witness :
  let moved :=
    Mock.state_vector "2025-063T12:00:00.000Z"
      "1000.5" "2000.0" "3000.0" "2.0" "2.0" "1.0" in
  let db := Mock.db_of Mock.mock_iss_data in
  let db1 := (read_iss_data (Parsed (VList [moved])) None None db).1 in
  epoch_data "2025-063T12:00:00.000Z" db1 = (db1, Ok moved) ∧
  Rd.index db1 = Rd.index db ∧
  (∀ k', k' ≠ "2025-063T12:00:00.000Z" → db1 !! k' = db !! k').
Proof.
  intros moved db.
  apply (changed_sample_is_replaced moved Mock.sv0 "2025-063T12:00:00.000Z"
           None None db); reflexivity.
Defined.
